(** * Scope detection and reference resolution of the Slack MCP server

    A shallow embedding of the scope detector of package [provider]
    ([ScopeDetector], its probes and its queries), of the channel
    reference resolution done by [MessagesWithAttachmentsHandler] of
    package [handler], and of the credential priority rule of the
    authentication guide, with the properties the specification states
    about them. *)

From Stdlib Require Import String Ascii ZArith List Permutation.
From stdpp Require Import gmap strings list fin_maps.

Open Scope string_scope.

(** ** Go strings and errors *)

Module strings.

(** [strings.HasPrefix(s, prefix)]. *)
Definition HasPrefix (s pre : string) : bool := String.prefix pre s.

(** [strings.Contains(s, substr)]: [substr] starts at some position of
    [s]. *)
Fixpoint Contains (s substr : string) : bool :=
  HasPrefix s substr ||
  match s with
  | EmptyString => false
  | String _ s' => Contains s' substr
  end.

End strings.

(** A Go [error] value: [nil], or a value whose [Error()] method yields a
    message. *)
Definition error : Type := option string.

Definition nil_error : error := None.

(** [errors.New(msg)]. *)
Definition errors_New (msg : string) : error := Some msg.

(** [context.Canceled], the error of a cancelled context. *)
Definition context_Canceled : error := errors_New "context canceled".

(** A [context.Context], as far as the probes are concerned: [ctx.Err()]
    is [nil] until the context is cancelled. *)
Record Context : Type := { ctx_Err : error }.

Definition context_Background : Context := {| ctx_Err := nil_error |}.

(** ** Package provider: scopes *)

Module provider.

(** [type Scope string]. *)
Definition Scope : Type := string.

Definition ScopeChannelsRead    : Scope := "channels:read".
Definition ScopeChannelsHistory : Scope := "channels:history".
Definition ScopeGroupsRead      : Scope := "groups:read".
Definition ScopeGroupsHistory   : Scope := "groups:history".
Definition ScopeIMRead          : Scope := "im:read".
Definition ScopeIMHistory       : Scope := "im:history".
Definition ScopeIMWrite         : Scope := "im:write".
Definition ScopeMPIMRead        : Scope := "mpim:read".
Definition ScopeMPIMHistory     : Scope := "mpim:history".
Definition ScopeMPIMWrite       : Scope := "mpim:write".
Definition ScopeUsersRead       : Scope := "users:read".
Definition ScopeChatWrite       : Scope := "chat:write".
Definition ScopeSearchRead      : Scope := "search:read".

(** The parameters of [conversations.list] that the probes set; the other
    fields keep their zero value. *)
Record GetConversationsParameters : Type := {
  Cursor : string;
  ExcludeArchived : bool;
  Limit : Z;
  Types : list string
}.

Record SearchParameters : Type := { Count : Z }.

(** The [SlackAPI] interface, restricted to the three methods the
    detector calls.  A client is given by what each call returns; the
    listed entities and cursors are kept although the probes drop them. *)
Record SlackAPI : Type := {
  GetConversationsContext :
    Context -> GetConversationsParameters -> list string * string * error;
  GetUsersContext : Context -> Z -> list string * error;
  SearchContext :
    Context -> string -> SearchParameters -> list string * list string * error
}.

(** [ScopeDetector]: the client and the [detected] map.  The mutex only
    makes each access to the map atomic, and the logger does not take part
    in the result; neither is a field of the model. *)
Record ScopeDetector : Type := {
  client : SlackAPI;
  detected : gmap string bool
}.

(** [NewScopeDetector]: [detected] starts as an empty map. *)
Definition NewScopeDetector (c : SlackAPI) : ScopeDetector :=
  {| client := c; detected := ∅ |}.

(** [isMissingScopeError]. *)
Definition isMissingScopeError (err : error) : bool :=
  match err with
  | None => false
  | Some errStr =>
      strings.Contains errStr "missing_scope" ||
      strings.Contains errStr "not_allowed" ||
      strings.Contains errStr "access_denied"
  end.

(** The remote call made by each probe, and the error it returns. *)
Definition conversationsProbe (ty : string) : GetConversationsParameters :=
  {| Cursor := ""; ExcludeArchived := false; Limit := 1; Types := [ty] |}.

Definition listErr (sd : ScopeDetector) (ctx : Context) (ty : string) : error :=
  let '(_, _, err) := GetConversationsContext (client sd) ctx (conversationsProbe ty) in
  err.

Definition usersErr (sd : ScopeDetector) (ctx : Context) : error :=
  let '(_, err) := GetUsersContext (client sd) ctx 1 in
  err.

Definition searchErr (sd : ScopeDetector) (ctx : Context) : error :=
  let '(_, _, err) := SearchContext (client sd) ctx "test" {| Count := 1 |} in
  err.

Definition testChannelsRead (sd : ScopeDetector) (ctx : Context) : bool :=
  negb (isMissingScopeError (listErr sd ctx "public_channel")).

Definition testGroupsRead (sd : ScopeDetector) (ctx : Context) : bool :=
  negb (isMissingScopeError (listErr sd ctx "private_channel")).

Definition testIMRead (sd : ScopeDetector) (ctx : Context) : bool :=
  negb (isMissingScopeError (listErr sd ctx "im")).

Definition testMPIMRead (sd : ScopeDetector) (ctx : Context) : bool :=
  negb (isMissingScopeError (listErr sd ctx "mpim")).

Definition testUsersRead (sd : ScopeDetector) (ctx : Context) : bool :=
  negb (isMissingScopeError (usersErr sd ctx)).

Definition testSearchRead (sd : ScopeDetector) (ctx : Context) : bool :=
  negb (isMissingScopeError (searchErr sd ctx)).

(** [setScope]: [sd.detected[scope] = available]. *)
Definition setScope (sd : ScopeDetector) (scope : Scope) (available : bool)
  : ScopeDetector :=
  {| client := client sd; detected := <[scope := available]> (detected sd) |}.

(** [HasScope]: a Go map read, [false] for a key that was never written. *)
Definition HasScope (sd : ScopeDetector) (scope : Scope) : bool :=
  default false (detected sd !! scope).

(** [inferHistoryScopes]: four guarded writes, in source order. *)
Definition inferOne (rd hist : Scope) (sd : ScopeDetector) : ScopeDetector :=
  if HasScope sd rd then setScope sd hist true else sd.

Definition inferHistoryScopes (sd : ScopeDetector) : ScopeDetector :=
  inferOne ScopeMPIMRead ScopeMPIMHistory
    (inferOne ScopeIMRead ScopeIMHistory
       (inferOne ScopeGroupsRead ScopeGroupsHistory
          (inferOne ScopeChannelsRead ScopeChannelsHistory sd))).

(** The entries of the [scopeTests] table of [DetectScopes]. *)
Record scopeTest : Type := {
  scope : Scope;
  test : ScopeDetector -> Context -> bool
}.

Definition scopeTests : list scopeTest :=
  [ {| scope := ScopeChannelsRead; test := testChannelsRead |};
    {| scope := ScopeGroupsRead;   test := testGroupsRead |};
    {| scope := ScopeIMRead;       test := testIMRead |};
    {| scope := ScopeMPIMRead;     test := testMPIMRead |};
    {| scope := ScopeUsersRead;    test := testUsersRead |};
    {| scope := ScopeSearchRead;   test := testSearchRead |} ].

(** The body of one goroutine of [DetectScopes]: run the test, then record
    its answer under the mutex. *)
Definition probeTask (ctx : Context) (sd : ScopeDetector) (st : scopeTest)
  : ScopeDetector :=
  let available := test st sd ctx in
  setScope sd (scope st) available.

(** The goroutines write to [detected] one at a time, in the order [sched]
    the scheduler happens to pick; [wg.Wait()] returns once all have. *)
Definition runProbes (sched : list scopeTest) (ctx : Context)
    (sd : ScopeDetector) : ScopeDetector :=
  fold_left (probeTask ctx) sched sd.

Definition DetectScopesIn (sched : list scopeTest) (ctx : Context)
    (sd : ScopeDetector) : ScopeDetector :=
  inferHistoryScopes (runProbes sched ctx sd).

(** [DetectScopes], the goroutines taken in table order; by
    [DetectScopes_any_schedule] below every other order gives the same
    detector. *)
Definition DetectScopes (ctx : Context) (sd : ScopeDetector) : ScopeDetector :=
  DetectScopesIn scopeTests ctx sd.

(** [HasAnyReadScope]. *)
Definition HasAnyReadScope (sd : ScopeDetector) : bool :=
  HasScope sd ScopeChannelsRead ||
  HasScope sd ScopeGroupsRead ||
  HasScope sd ScopeIMRead ||
  HasScope sd ScopeMPIMRead.

(** [HasAnyHistoryScope]. *)
Definition HasAnyHistoryScope (sd : ScopeDetector) : bool :=
  HasScope sd ScopeChannelsHistory ||
  HasScope sd ScopeGroupsHistory ||
  HasScope sd ScopeIMHistory ||
  HasScope sd ScopeMPIMHistory.

(** [AvailableChannelTypes]: four guarded appends to a nil slice. *)
Definition appendIf (c : bool) (ty : string) (types : list string) : list string :=
  if c then types ++ [ty] else types.

Definition AvailableChannelTypes (sd : ScopeDetector) : list string :=
  let types := [] in
  let types := appendIf (HasScope sd ScopeChannelsRead) "public_channel" types in
  let types := appendIf (HasScope sd ScopeGroupsRead) "private_channel" types in
  let types := appendIf (HasScope sd ScopeIMRead) "im" types in
  let types := appendIf (HasScope sd ScopeMPIMRead) "mpim" types in
  types.

End provider.

(** ** Package handler: channel reference resolution *)

Module handler.

(** A channel of the directory snapshot; only its identifier and name
    matter here. *)
Record Channel : Type := { ID : string; Name : string }.

(** The zero value of [Channel], which a Go map read yields for a key it
    does not hold. *)
Definition zeroChannel : Channel := {| ID := ""; Name := "" |}.

(** The value of [ProvideChannelsMaps()]; its declaration lives in package
    [provider], outside the sources at hand, and is taken from the way the
    handler uses it: [Channels] maps an identifier to its channel and
    [ChannelsInv] maps a prefixed name to an identifier. *)
Record ChannelsCache : Type := {
  Channels : gmap string Channel;
  ChannelsInv : gmap string string
}.

(** The errors the handler builds itself before it calls Slack:
    - [AuthenticationFailed err] is the [err] of [auth.IsAuthenticated];
    - [ChannelIDRequired] is [errors.New("channel_id is required")];
    - [ChannelNotFound ref] is [fmt.Errorf("channel %q not found", ref)]. *)
Inductive HandlerError : Type :=
| AuthenticationFailed (err : error)
| ChannelIDRequired
| ChannelNotFound (ref : string).

(** The arguments of the tool call, as [request.GetString] and
    [request.GetInt] see them: an argument that is absent reads as the
    default given by the caller. *)
Record CallToolRequest : Type := {
  arg_channel_id : option string;
  arg_limit : option Z;
  arg_cursor : option string
}.

Definition GetString (o : option string) (dflt : string) : string := default dflt o.
Definition GetInt (o : option Z) (dflt : Z) : Z := default dflt o.

Record GetConversationHistoryParameters : Type := {
  ChannelID : string;
  HistoryLimit : Z;
  HistoryCursor : string;
  Inclusive : bool
}.

(** "Resolve channel name to ID if needed": the block of
    [MessagesWithAttachmentsHandler] that turns the [channel_id] argument
    into the identifier sent to Slack. *)
Definition resolveChannelID (channelsMaps : ChannelsCache) (channelID : string)
  : HandlerError + string :=
  if strings.HasPrefix channelID "#" || strings.HasPrefix channelID "@" then
    match ChannelsInv channelsMaps !! channelID with
    | None => inl (ChannelNotFound channelID)
    | Some chn => inr (ID (default zeroChannel (Channels channelsMaps !! chn)))
    end
  else inr channelID.

(** [MessagesWithAttachmentsHandler] up to the call of
    [GetConversationHistoryContext]: an early error return, or the
    parameters of that call.  [authenticated] is the pair returned by
    [auth.IsAuthenticated]. *)
Definition MessagesWithAttachmentsHandler_params
    (authenticated : bool * error) (channelsMaps : ChannelsCache)
    (request : CallToolRequest)
  : HandlerError + GetConversationHistoryParameters :=
  if negb (fst authenticated) then inl (AuthenticationFailed (snd authenticated))
  else
    let channelID := GetString (arg_channel_id request) "" in
    if String.eqb channelID "" then inl ChannelIDRequired
    else
      let limit := GetInt (arg_limit request) 100 in
      let limit := if (limit <? 1)%Z || (limit >? 100)%Z then 100%Z else limit in
      let cursor := GetString (arg_cursor request) "" in
      match resolveChannelID channelsMaps channelID with
      | inl e => inl e
      | inr channelID =>
          inr {| ChannelID := channelID; HistoryLimit := limit;
                 HistoryCursor := cursor; Inclusive := false |}
      end.

End handler.

(** ** Credential selection *)

Module credentials.

(** The four named configuration values of the authentication guide:
    [xoxp] user token, [xoxb] bot token, and the [xoxc]/[xoxd] session
    pair. *)
Inductive SourceName : Type := XOXP | XOXB | XOXC | XOXD.

Definition SourceName_eqb (a b : SourceName) : bool :=
  match a, b with
  | XOXP, XOXP | XOXB, XOXB | XOXC, XOXC | XOXD, XOXD => true
  | _, _ => false
  end.

Inductive Credential : Type :=
| UserToken (xoxp : string)
| BotToken (xoxb : string)
| SessionPair (xoxc xoxd : string).

Inductive CredentialKind : Type := KindUser | KindBot | KindSession.

Definition kindOf (c : Credential) : CredentialKind :=
  match c with
  | UserToken _ => KindUser
  | BotToken _ => KindBot
  | SessionPair _ _ => KindSession
  end.

Inductive CredentialError : Type := NoCredential | IncompletePair.

(** The value supplied under a name: the first one presented. *)
Fixpoint supplied (n : SourceName) (sources : list (SourceName * string))
  : option string :=
  match sources with
  | [] => None
  | (m, v) :: rest => if SourceName_eqb n m then Some v else supplied n rest
  end.

(** Modelled from the spec: the credential resolver itself is missing from
    the sources at hand (only the authentication guide's priority note is
    there).  [Resolve(sources) -> Credential | Error] follows section 4.1:
    priority, highest first, user token, bot token, session pair;
    [NoCredential] if none is present; [IncompletePair] if the session pair
    is the mode left and one of its two secrets is missing. *)
Definition Resolve (sources : list (SourceName * string))
  : CredentialError + Credential :=
  match supplied XOXP sources with
  | Some xoxp => inr (UserToken xoxp)
  | None =>
      match supplied XOXB sources with
      | Some xoxb => inr (BotToken xoxb)
      | None =>
          match supplied XOXC sources, supplied XOXD sources with
          | Some xoxc, Some xoxd => inr (SessionPair xoxc xoxd)
          | None, None => inl NoCredential
          | _, _ => inl IncompletePair
          end
      end
  end.

(** The mode a resolution ends in, whatever the secrets are. *)
Definition selectedKind (sources : list (SourceName * string))
  : CredentialError + CredentialKind :=
  match Resolve sources with
  | inl e => inl e
  | inr c => inr (kindOf c)
  end.

Definition present (n : SourceName) (sources : list (SourceName * string)) : bool :=
  bool_decide (is_Some (supplied n sources)).

End credentials.

(** ** Example clients and inputs *)

Module examples.
Import provider.

(** A client whose every call succeeds. *)
Definition okClient : SlackAPI :=
  {| GetConversationsContext := fun _ _ => ([], "", nil_error);
     GetUsersContext := fun _ _ => ([], nil_error);
     SearchContext := fun _ _ _ => ([], [], nil_error) |}.

(** A client that answers every call with the same error. *)
Definition failingClient (err : error) : SlackAPI :=
  {| GetConversationsContext := fun _ _ => ([], "", err);
     GetUsersContext := fun _ _ => ([], err);
     SearchContext := fun _ _ _ => ([], [], err) |}.

(** A client that honours cancellation: a call made under a cancelled
    context returns the context's error. *)
Definition cancellableClient : SlackAPI :=
  {| GetConversationsContext := fun ctx _ => ([], "", ctx_Err ctx);
     GetUsersContext := fun ctx _ => ([], ctx_Err ctx);
     SearchContext := fun ctx _ _ => ([], [], ctx_Err ctx) |}.

Definition cancelledContext : Context := {| ctx_Err := context_Canceled |}.

(** A token that carries [channels:read] and [groups:read] only: listing
    public or private channels succeeds, every other call is refused with
    [missing_scope]. *)
Definition channelsOnlyClient : SlackAPI :=
  {| GetConversationsContext := fun _ params =>
       match Types params with
       | [ty] =>
           if String.eqb ty "public_channel" || String.eqb ty "private_channel"
           then ([], "", nil_error)
           else ([], "", errors_New "missing_scope")
       | _ => ([], "", errors_New "invalid_types")
       end;
     GetUsersContext := fun _ _ => ([], errors_New "missing_scope");
     SearchContext := fun _ _ _ => ([], [], errors_New "missing_scope") |}.

(** The message of slack-go's rate limit error, and of a refused
    connection. *)
Definition rateLimited : error :=
  errors_New "slack rate limit exceeded, retry after 30s".
Definition connectionRefused : error :=
  errors_New "dial tcp 10.0.0.1:443: connect: connection refused".

(** A cancellation as the HTTP client reports it: [context.Canceled]
    wrapped in a [url.Error], whose message quotes the URL. *)
Definition wrappedCanceled : error :=
  errors_New ("Post " +:+ String "034"%char "https://slack.com/api/conversations.list"
              +:+ String "034"%char ": context canceled").

(** [context.DeadlineExceeded]. *)
Definition context_DeadlineExceeded : error :=
  errors_New "context deadline exceeded".

(** A directory snapshot with one channel, and calls that name a channel
    the snapshot does not hold, or give a bare identifier. *)
Definition general : handler.Channel :=
  {| handler.ID := "C0123456789"; handler.Name := "#general" |}.

Definition directory : handler.ChannelsCache :=
  {| handler.Channels := {[ "C0123456789" := general ]};
     handler.ChannelsInv := {[ "#general" := "C0123456789" ]} |}.

Definition callFor (channel_id : string) : handler.CallToolRequest :=
  {| handler.arg_channel_id := Some channel_id;
     handler.arg_limit := None;
     handler.arg_cursor := None |}.

(** Credential sources presented lowest priority first. *)
Definition allSources : list (credentials.SourceName * string) :=
  [ (credentials.XOXD, "xoxd-cookie"); (credentials.XOXC, "xoxc-session");
    (credentials.XOXB, "xoxb-bot"); (credentials.XOXP, "xoxp-user") ].

End examples.

(** ** Vocabulary of the properties *)

(** [sub] occurs in [s]. *)
Definition occurs_in (sub s : string) : Prop :=
  exists before after, s = before +:+ sub +:+ after.

Module vocabulary.
Import provider.

(** A test that looks at the detector's client only, as the six probes
    do. *)
Definition clientOnly (st : scopeTest) : Prop :=
  forall sd sd' ctx, client sd = client sd' -> test st sd ctx = test st sd' ctx.

(** The scopes that have a probe of their own. *)
Definition probedScopes : list Scope := map scope scopeTests.

(** Each read scope with the history scope inferred from it. *)
Definition historyPairs : list (Scope * Scope) :=
  [ (ScopeChannelsRead, ScopeChannelsHistory);
    (ScopeGroupsRead, ScopeGroupsHistory);
    (ScopeIMRead, ScopeIMHistory);
    (ScopeMPIMRead, ScopeMPIMHistory) ].

(** Every scope some statement of the detection phase can write. *)
Definition writtenScopes : list Scope := probedScopes ++ map snd historyPairs.

(** Each channel type with the read scope that gives access to it, in the
    order [AvailableChannelTypes] goes through them. *)
Definition channelTypes : list (string * Scope) :=
  [ ("public_channel", ScopeChannelsRead);
    ("private_channel", ScopeGroupsRead);
    ("im", ScopeIMRead);
    ("mpim", ScopeMPIMRead) ].

(** The detector after a first detection round on a new detector. *)
Definition detectedBy (c : SlackAPI) (ctx : Context) : ScopeDetector :=
  DetectScopes ctx (NewScopeDetector c).

(** Detection rounds run one after the other on the same detector, each
    under its own context. *)
Definition detectRounds (rounds : list Context) (sd : ScopeDetector)
  : ScopeDetector :=
  fold_left (fun sd ctx => DetectScopes ctx sd) rounds sd.

(** A reference written as a name: it starts with [#] or [@]. *)
Definition prefixed (ref : string) : bool :=
  strings.HasPrefix ref "#" || strings.HasPrefix ref "@".

End vocabulary.

(** ** Package provider: the log of a detection round *)

Module provider_log.
Import provider.

(** One step of the loop of [logDetectedScopes]: the scope goes to the
    end of [available] or of [unavailable]. *)
Definition logEntry (acc : list string * list string) (entry : Scope * bool)
  : list string * list string :=
  let '(available, unavailable) := acc in
  let '(scope, isAvailable) := entry in
  if isAvailable then ((available ++ [scope])%list, unavailable)
  else (available, (unavailable ++ [scope])%list).

(** [logDetectedScopes]: the [available] and [unavailable] fields of the
    "Scope detection complete" record.  A Go [range] over a map visits
    every entry once, in an order the language leaves open;
    [map_to_list] fixes one such order, and the properties below are about
    membership only. *)
Definition logDetectedScopes (sd : ScopeDetector) : list string * list string :=
  fold_left logEntry (map_to_list (detected sd)) ([], []).

End provider_log.

(** ** Package handler: the attachment handlers *)

Module attachments.
Import handler.

(** A [slack.File], with the fields the handlers read.  [file_Timestamp]
    is [file.Timestamp.String()]. *)
Record File : Type := {
  file_ID : string;
  file_Name : string;
  file_Title : string;
  file_Mimetype : string;
  file_Filetype : string;
  file_PrettyType : string;
  file_Size : Z;
  file_URLPrivate : string;
  file_URLPrivateDownload : string;
  file_Permalink : string;
  file_User : string;
  file_Timestamp : string;
  file_IsPublic : bool;
  file_IsExternal : bool;
  file_Channels : list string;
  file_Groups : list string;
  file_IMs : list string;
  file_Thumb64 : string;
  file_Thumb80 : string;
  file_Thumb160 : string;
  file_Thumb360 : string;
  file_Thumb480 : string;
  file_Thumb720 : string;
  file_Thumb1024 : string;
  file_OriginalW : Z;
  file_OriginalH : Z
}.

(** [Attachment]. *)
Record Attachment : Type := {
  att_ID : string;
  att_Name : string;
  att_Title : string;
  att_MimeType : string;
  att_FileType : string;
  att_Size : Z;
  att_URL : string;
  att_URLPrivate : string;
  att_Permalink : string;
  att_MessageID : string;
  att_ChannelID : string;
  att_UserID : string;
  att_UserName : string;
  att_Timestamp : string;
  att_Cursor : string
}.

(** [attachments[i].Cursor = cursor]. *)
Definition withCursor (cursor : string) (a : Attachment) : Attachment :=
  {| att_ID := att_ID a; att_Name := att_Name a; att_Title := att_Title a;
     att_MimeType := att_MimeType a; att_FileType := att_FileType a;
     att_Size := att_Size a; att_URL := att_URL a;
     att_URLPrivate := att_URLPrivate a; att_Permalink := att_Permalink a;
     att_MessageID := att_MessageID a; att_ChannelID := att_ChannelID a;
     att_UserID := att_UserID a; att_UserName := att_UserName a;
     att_Timestamp := att_Timestamp a; att_Cursor := cursor |}.

Record User : Type := { user_ID : string; user_Name : string }.

(** The value of [ProvideUsersMap()], as the handlers use it. *)
Record UsersCache : Type := { Users : gmap string User }.

Record Message : Type := { msg_Timestamp : string; msg_Files : list File }.

(** The answer of [conversations.history]; [NextCursor] is
    [ResponseMetaData.NextCursor]. *)
Record History : Type := {
  Messages : list Message;
  HasMore : bool;
  NextCursor : string
}.

Record Request : Type := {
  req_Method : string;
  req_URL : string;
  req_Header : gmap string string
}.

(** An HTTP response: its status and what [io.ReadAll(resp.Body)]
    returns. *)
Record Response : Type := {
  StatusCode : Z;
  ReadAll : string * error
}.

(** What the handlers call outside their own file, each given by what it
    returns: the methods of [provider.ApiProvider] and of its Slack and
    HTTP clients, [auth.IsAuthenticated], [text.TimestampToIsoRFC3339], and
    the error of [http.NewRequestWithContext] for a URL. *)
Record ApiProvider : Type := {
  IsAuthenticated : Context -> bool * error;
  ProvideChannelsMaps : ChannelsCache;
  ProvideUsersMap : UsersCache;
  SlackToken : string;
  GetConversationHistoryContext :
    Context -> GetConversationHistoryParameters -> History * error;
  GetFileInfoContext : Context -> string -> File * error;
  TimestampToIsoRFC3339 : string -> string * error;
  NewRequestError : string -> error;
  Do : Request -> Response * error
}.

(** The errors the handlers return:
    - [Rejected e]: the early returns of [MessagesWithAttachmentsHandler];
    - [FileIDRequired]: [errors.New("file_id is required")];
    - [Upstream err]: the error of a Slack call, returned as it is;
    - [NotTextFile name mime]: "file %q is not a text file (type: %s). ...";
    - [CreateRequestFailed err]: "failed to create request: %w";
    - [DownloadFailed err]: "failed to download file: %w";
    - [BadStatus code]: "failed to download file: HTTP %d";
    - [ReadFailed err]: "failed to read file content: %w". *)
Inductive Failure : Type :=
| Rejected (e : HandlerError)
| FileIDRequired
| Upstream (err : string)
| NotTextFile (name mime : string)
| CreateRequestFailed (err : string)
| DownloadFailed (err : string)
| BadStatus (code : Z)
| ReadFailed (err : string).

(** The name shown for a user: the directory's, or the identifier when
    the directory does not hold the user. *)
Definition userNameOf (usersMap : UsersCache) (user : string) : string :=
  match Users usersMap !! user with
  | Some u => user_Name u
  | None => user
  end.

(** The timestamp shown: the converted one, or the raw one when the
    conversion fails. *)
Definition timestampOf (ap : ApiProvider) (raw : string) : string :=
  let '(timestamp, err) := TimestampToIsoRFC3339 ap raw in
  match err with
  | Some _ => raw
  | None => timestamp
  end.

(** The [Attachment] literal built for one file of one message. *)
Definition attachmentOf (ap : ApiProvider) (channelID : string)
    (msg : Message) (file : File) : Attachment :=
  let userName := userNameOf (ProvideUsersMap ap) (file_User file) in
  let timestamp := timestampOf ap (msg_Timestamp msg) in
  {| att_ID := file_ID file;
     att_Name := file_Name file;
     att_Title := file_Title file;
     att_MimeType := file_Mimetype file;
     att_FileType := file_Filetype file;
     att_Size := file_Size file;
     att_URL := file_URLPrivate file;
     att_URLPrivate := file_URLPrivateDownload file;
     att_Permalink := file_Permalink file;
     att_MessageID := msg_Timestamp msg;
     att_ChannelID := channelID;
     att_UserID := file_User file;
     att_UserName := userName;
     att_Timestamp := timestamp;
     att_Cursor := "" |}.

(** The body of the loop over [history.Messages]. *)
Definition appendFiles (ap : ApiProvider) (channelID : string)
    (attachments : list Attachment) (msg : Message) : list Attachment :=
  if (length (msg_Files msg) =? 0)%nat then attachments
  else
    fold_left (fun attachments file =>
                 (attachments ++ [attachmentOf ap channelID msg file])%list)
              (msg_Files msg) attachments.

(** "Set cursor on last item if there are more results". *)
Definition setLastCursor (history : History) (attachments : list Attachment)
  : list Attachment :=
  if (0 <? length attachments)%nat && HasMore history then
    alter (withCursor (NextCursor history)) (length attachments - 1)%nat attachments
  else attachments.

(** [MessagesWithAttachmentsHandler]: the error returned, or the slice
    handed to [gocsv.MarshalBytes]. *)
Definition MessagesWithAttachmentsHandler (ap : ApiProvider) (ctx : Context)
    (request : CallToolRequest) : Failure + list Attachment :=
  match MessagesWithAttachmentsHandler_params
          (IsAuthenticated ap ctx) (ProvideChannelsMaps ap) request with
  | inl e => inl (Rejected e)
  | inr historyParams =>
      let '(history, err) := GetConversationHistoryContext ap ctx historyParams in
      match err with
      | Some e => inl (Upstream e)
      | None =>
          let attachments :=
            fold_left (appendFiles ap (ChannelID historyParams))
                      (Messages history) [] in
          inr (setLastCursor history attachments)
      end
  end.

(** The values of the [map[string]interface{}] responses. *)
Inductive Value : Type :=
| VString (s : string)
| VInt (n : Z)
| VBool (b : bool)
| VStrings (l : list string)
| VThumbnails (m : gmap string string)
| VDimensions (m : gmap string Z).

(** One guarded write of "Add thumbnail URLs if available". *)
Definition addThumb (key url : string) (thumbnails : gmap string string)
  : gmap string string :=
  if negb (String.eqb url "") then <[key := url]> thumbnails else thumbnails.

Definition thumbnailsOf (file : File) : gmap string string :=
  let thumbnails := ∅ in
  let thumbnails := addThumb "thumb64" (file_Thumb64 file) thumbnails in
  let thumbnails := addThumb "thumb80" (file_Thumb80 file) thumbnails in
  let thumbnails := addThumb "thumb160" (file_Thumb160 file) thumbnails in
  let thumbnails := addThumb "thumb360" (file_Thumb360 file) thumbnails in
  let thumbnails := addThumb "thumb480" (file_Thumb480 file) thumbnails in
  let thumbnails := addThumb "thumb720" (file_Thumb720 file) thumbnails in
  let thumbnails := addThumb "thumb1024" (file_Thumb1024 file) thumbnails in
  thumbnails.

(** The response of [GetAttachmentDetailsHandler] for a file: the map
    literal, then the two optional entries. *)
Definition detailsResponse (ap : ApiProvider) (file : File) : gmap string Value :=
  let userName := userNameOf (ProvideUsersMap ap) (file_User file) in
  let timestamp := timestampOf ap (file_Timestamp file) in
  let response : gmap string Value :=
    list_to_map
      [ ("id", VString (file_ID file));
        ("name", VString (file_Name file));
        ("title", VString (file_Title file));
        ("mimeType", VString (file_Mimetype file));
        ("fileType", VString (file_Filetype file));
        ("prettyType", VString (file_PrettyType file));
        ("size", VInt (file_Size file));
        ("url", VString (file_URLPrivate file));
        ("urlDownload", VString (file_URLPrivateDownload file));
        ("permalink", VString (file_Permalink file));
        ("userID", VString (file_User file));
        ("userName", VString userName);
        ("timestamp", VString timestamp);
        ("isPublic", VBool (file_IsPublic file));
        ("isExternal", VBool (file_IsExternal file));
        ("channels", VStrings (file_Channels file));
        ("groups", VStrings (file_Groups file));
        ("ims", VStrings (file_IMs file)) ] in
  let thumbnails := thumbnailsOf file in
  let response :=
    if (0 <? size thumbnails)%nat
    then <["thumbnails" := VThumbnails thumbnails]> response
    else response in
  let response :=
    if (file_OriginalW file >? 0)%Z || (file_OriginalH file >? 0)%Z
    then <["dimensions" :=
             VDimensions {[ "width" := file_OriginalW file;
                            "height" := file_OriginalH file ]}]> response
    else response in
  response.

(** The [file_id] argument of the two file handlers. *)
Record FileRequest : Type := { arg_file_id : option string }.

(** What both file handlers do first: authentication, the [file_id]
    argument, and [GetFileInfoContext]. *)
Definition fileInfo (ap : ApiProvider) (ctx : Context) (request : FileRequest)
  : Failure + File :=
  let authenticated := IsAuthenticated ap ctx in
  if negb (fst authenticated)
  then inl (Rejected (AuthenticationFailed (snd authenticated)))
  else
    let fileID := GetString (arg_file_id request) "" in
    if String.eqb fileID "" then inl FileIDRequired
    else
      let '(file, err) := GetFileInfoContext ap ctx fileID in
      match err with
      | Some e => inl (Upstream e)
      | None => inr file
      end.

(** [GetAttachmentDetailsHandler]: the error returned, or the map handed
    to [json.MarshalIndent]. *)
Definition GetAttachmentDetailsHandler (ap : ApiProvider) (ctx : Context)
    (request : FileRequest) : Failure + gmap string Value :=
  match fileInfo ap ctx request with
  | inl e => inl e
  | inr file => inr (detailsResponse ap file)
  end.

(** [textMimeTypes]. *)
Definition textMimeTypes : gmap string bool :=
  list_to_map
    [ ("text/plain", true);
      ("text/html", true);
      ("text/css", true);
      ("text/csv", true);
      ("text/markdown", true);
      ("text/xml", true);
      ("application/json", true);
      ("application/xml", true);
      ("application/javascript", true);
      ("application/x-yaml", true);
      ("application/x-sh", true) ].

Definition textExtensions : list string :=
  [ "txt"; "md"; "json"; "xml"; "yaml"; "yml"; "csv"; "log"; "sh"; "py";
    "go"; "js"; "ts"; "html"; "css"; "sql" ].

(** [isTextFile]: a read of [textMimeTypes], then the loop over the
    extensions, which returns at the first one equal to [fileType]. *)
Definition isTextFile (mimeType fileType : string) : bool :=
  if default false (textMimeTypes !! mimeType) then true
  else existsb (fun ext => String.eqb fileType ext) textExtensions.

(** The request [downloadFileContent] sends. *)
Definition downloadRequest (ap : ApiProvider) (url : string) : Request :=
  let header : gmap string string := ∅ in
  let token := SlackToken ap in
  let header :=
    if negb (String.eqb token "")
    then <["Authorization" := "Bearer " +:+ token]> header
    else header in
  {| req_Method := "GET"; req_URL := url; req_Header := header |}.

(** [downloadFileContent]. *)
Definition downloadFileContent (ap : ApiProvider) (url : string)
  : Failure + string :=
  match NewRequestError ap url with
  | Some e => inl (CreateRequestFailed e)
  | None =>
      let '(resp, err) := Do ap (downloadRequest ap url) in
      match err with
      | Some e => inl (DownloadFailed e)
      | None =>
          if negb (StatusCode resp =? 200)%Z then inl (BadStatus (StatusCode resp))
          else
            let '(body, err) := ReadAll resp in
            match err with
            | Some e => inl (ReadFailed e)
            | None => inr body
            end
      end
  end.

(** [GetAttachmentContentHandler]: the error returned, or the map handed
    to [json.MarshalIndent]. *)
Definition GetAttachmentContentHandler (ap : ApiProvider) (ctx : Context)
    (request : FileRequest) : Failure + gmap string Value :=
  match fileInfo ap ctx request with
  | inl e => inl e
  | inr file =>
      if negb (isTextFile (file_Mimetype file) (file_Filetype file))
      then inl (NotTextFile (file_Name file) (file_Mimetype file))
      else
        match downloadFileContent ap (file_URLPrivate file) with
        | inl e => inl e
        | inr content =>
            inr (list_to_map
                   [ ("id", VString (file_ID file));
                     ("name", VString (file_Name file));
                     ("title", VString (file_Title file));
                     ("mimeType", VString (file_Mimetype file));
                     ("fileType", VString (file_Filetype file));
                     ("size", VInt (file_Size file));
                     ("content", VString content) ])
        end
  end.

End attachments.

(** ** Sample inputs of the attachment handlers *)

Module fixtures.
Import handler attachments.

(** A file with the given identity, types, owner, first thumbnail and
    size in pixels, and nothing else set. *)
Definition fileWith (id name mime ftype user thumb64 : string) (w h : Z) : File :=
  {| file_ID := id; file_Name := name; file_Title := name;
     file_Mimetype := mime; file_Filetype := ftype; file_PrettyType := "";
     file_Size := 1024;
     file_URLPrivate := "https://files.slack.com/files-pri/" +:+ id;
     file_URLPrivateDownload := "https://files.slack.com/files-pri/download/" +:+ id;
     file_Permalink := ""; file_User := user;
     file_Timestamp := "1700000000";
     file_IsPublic := false; file_IsExternal := false;
     file_Channels := []; file_Groups := []; file_IMs := [];
     file_Thumb64 := thumb64; file_Thumb80 := ""; file_Thumb160 := "";
     file_Thumb360 := ""; file_Thumb480 := ""; file_Thumb720 := "";
     file_Thumb1024 := "";
     file_OriginalW := w; file_OriginalH := h |}.

Definition report : File :=
  fileWith "F1" "report.pdf" "application/pdf" "pdf" "U1"
           "https://files.slack.com/thumb64/F1" 0 480.

Definition notes : File :=
  fileWith "F2" "notes.txt" "text/plain" "text" "U9" "" 0 0.

Definition users : UsersCache :=
  {| Users := {[ "U1" := {| user_ID := "U1"; user_Name := "alice" |} ]} |}.

(** Three messages: two files, no file, one file; more pages follow. *)
Definition history : History :=
  {| Messages :=
       [ {| msg_Timestamp := "1700000000.000100"; msg_Files := [report; notes] |};
         {| msg_Timestamp := "1700000000.000200"; msg_Files := [] |};
         {| msg_Timestamp := "1700000000.000300"; msg_Files := [notes] |} ];
     HasMore := true;
     NextCursor := "bmV4dA==" |}.

(** A workspace that answers every call: the timestamp of the first
    message converts, the others do not; every download succeeds. *)
Definition api : ApiProvider :=
  {| IsAuthenticated := fun _ => (true, nil_error);
     ProvideChannelsMaps := examples.directory;
     ProvideUsersMap := users;
     SlackToken := "xoxp-user";
     GetConversationHistoryContext := fun _ _ => (history, nil_error);
     GetFileInfoContext := fun _ id =>
       if String.eqb id "F2" then (notes, nil_error) else (report, nil_error);
     TimestampToIsoRFC3339 := fun ts =>
       if String.eqb ts "1700000000.000100"
       then ("2023-11-14T22:13:20Z", nil_error)
       else ("", errors_New "invalid timestamp");
     NewRequestError := fun _ => nil_error;
     Do := fun _ =>
       ({| StatusCode := 200; ReadAll := ("remember the milk", nil_error) |},
        nil_error) |}.

(** A snapshot whose inverse map names a channel the snapshot does not
    hold. *)
Definition danglingDirectory : ChannelsCache :=
  {| Channels := ∅; ChannelsInv := {[ "#gone" := "C0404040404" ]} |}.

Definition callWithLimit (channel_id : string) (limit : Z) : CallToolRequest :=
  {| arg_channel_id := Some channel_id;
     arg_limit := Some limit;
     arg_cursor := None |}.

End fixtures.

(** ** Cancellation as the HTTP client reports it *)

(** [s[n:]]: [s] without its first [n] bytes, and empty when [s] is
    shorter. *)
Fixpoint string_drop (n : nat) (s : string) : string :=
  match n, s with
  | O, _ => s
  | S n', String _ s' => string_drop n' s'
  | S _, EmptyString => EmptyString
  end.

Module cancellation.
Import provider.

(** What a [url.Error] puts before the message of the error it wraps:
    the operation and the quoted URL. *)
Definition urlErrorPrefix : string :=
  "Post " +:+ String "034"%char "https://slack.com/api/conversations.list"
  +:+ String "034"%char ": ".

(** A client whose every call was cancelled in flight: each returns
    [context.Canceled] wrapped in a [url.Error]. *)
Definition httpCancelledClient : SlackAPI :=
  examples.failingClient (errors_New (urlErrorPrefix +:+ "context canceled")).

End cancellation.

(** ** Substrings *)

Section Substrings.

Lemma HasPrefix_spec (s pre : string) :
  strings.HasPrefix s pre = true <-> exists rest, s = pre +:+ rest.
Proof.
  unfold strings.HasPrefix. revert s.
  induction pre as [|a pre IH]; intros s; simpl.
  - split; [intros _; exists s; reflexivity | destruct s; reflexivity].
  - destruct s as [|b s]; simpl.
    + split; [discriminate | intros [rest Hrest]; discriminate].
    + destruct (Ascii.ascii_dec a b) as [->|Hab].
      * rewrite IH. split; intros [rest Hrest]; exists rest.
        -- simpl. by rewrite Hrest.
        -- simpl in Hrest. by injection Hrest.
      * split; [discriminate | intros [rest Hrest]].
        simpl in Hrest. by injection Hrest.
Qed.

Lemma Contains_spec (s sub : string) :
  strings.Contains s sub = true <-> occurs_in sub s.
Proof.
  unfold occurs_in. induction s as [|a s IH]; cbn [strings.Contains].
  - rewrite orb_false_r, HasPrefix_spec. split.
    + intros [rest Hrest]. exists EmptyString, rest. exact Hrest.
    + intros [[|b before] [after Hs]]; simpl in Hs; [eauto | discriminate].
  - rewrite orb_true_iff, IH, HasPrefix_spec. split.
    + intros [[rest Hrest] | (before & after & Hs)].
      * exists EmptyString, rest. exact Hrest.
      * exists (String a before), after. simpl. by rewrite Hs.
    + intros [[|b before] [after Hs]]; simpl in Hs.
      * left. eauto.
      * right. exists before, after. by injection Hs.
Qed.

End Substrings.

(** ** The detected map under writes *)

Section DetectedMap.
Import provider.

Lemma client_setScope sd s b : client (setScope sd s b) = client sd.
Proof. reflexivity. Qed.

Lemma HasScope_setScope_eq sd s b : HasScope (setScope sd s b) s = b.
Proof. unfold HasScope, setScope; simpl. by rewrite lookup_insert_eq. Qed.

Lemma HasScope_setScope_ne sd s s' b :
  s <> s' -> HasScope (setScope sd s b) s' = HasScope sd s'.
Proof.
  intros Hne. unfold HasScope, setScope; simpl. by rewrite lookup_insert_ne.
Qed.

Lemma setScope_comm sd s1 b1 s2 b2 :
  s1 <> s2 ->
  setScope (setScope sd s1 b1) s2 b2 = setScope (setScope sd s2 b2) s1 b1.
Proof.
  intros Hne. unfold setScope; simpl. f_equal. by apply insert_insert_ne.
Qed.

Lemma client_inferOne rd hist sd : client (inferOne rd hist sd) = client sd.
Proof. unfold inferOne. by destruct (HasScope sd rd). Qed.

(** A guarded write reads [rd] and touches [hist] only. *)
Lemma HasScope_inferOne_other rd hist sd s :
  hist <> s -> HasScope (inferOne rd hist sd) s = HasScope sd s.
Proof.
  intros Hne. unfold inferOne. destruct (HasScope sd rd); [|done].
  by apply HasScope_setScope_ne.
Qed.

Lemma HasScope_inferOne_hist rd hist sd :
  HasScope (inferOne rd hist sd) hist = HasScope sd rd || HasScope sd hist.
Proof.
  unfold inferOne. destruct (HasScope sd rd) eqn:Hrd; [|done].
  by rewrite HasScope_setScope_eq.
Qed.

End DetectedMap.

(** ** The probing phase *)

Section Probing.
Import provider vocabulary.

Lemma client_probeTask ctx sd st : client (probeTask ctx sd st) = client sd.
Proof. reflexivity. Qed.

Lemma client_runProbes sched ctx sd : client (runProbes sched ctx sd) = client sd.
Proof.
  unfold runProbes. revert sd.
  induction sched as [|st sched IH]; intros sd; simpl; [done|].
  by rewrite IH.
Qed.

Lemma scopeTests_clientOnly : Forall clientOnly scopeTests.
Proof.
  repeat constructor; intros sd sd' ctx Hc; simpl;
    unfold testChannelsRead, testGroupsRead, testIMRead, testMPIMRead,
      testUsersRead, testSearchRead, listErr, usersErr, searchErr;
    by rewrite Hc.
Qed.

Lemma scopeTests_NoDup : NoDup probedScopes.
Proof.
  unfold probedScopes; simpl.
  repeat (apply NoDup_cons; split;
          [rewrite ?elem_of_cons, elem_of_nil; intuition discriminate|]).
  apply NoDup_nil_2.
Qed.

(** Two goroutines that write different scopes commute. *)
Lemma probeTask_comm ctx sd st1 st2 :
  clientOnly st1 -> clientOnly st2 -> scope st1 <> scope st2 ->
  probeTask ctx (probeTask ctx sd st1) st2 =
  probeTask ctx (probeTask ctx sd st2) st1.
Proof.
  intros H1 H2 Hne. unfold probeTask.
  rewrite (H2 (setScope sd (scope st1) (test st1 sd ctx)) sd ctx) by done.
  rewrite (H1 (setScope sd (scope st2) (test st2 sd ctx)) sd ctx) by done.
  by apply setScope_comm.
Qed.

(** The order in which the goroutines get the mutex does not matter. *)
Lemma runProbes_Permutation sched sched' ctx :
  Permutation sched sched' ->
  NoDup (map scope sched) -> Forall clientOnly sched ->
  forall sd, runProbes sched ctx sd = runProbes sched' ctx sd.
Proof.
  unfold runProbes.
  induction 1 as [|st l l' Hperm IH|st1 st2 l|l l' l'' Hp1 IH1 Hp2 IH2];
    intros Hnd Hco sd; simpl.
  - done.
  - apply NoDup_cons in Hnd as [_ Hnd]. apply Forall_cons in Hco as [_ Hco].
    by apply IH.
  - simpl in Hnd. apply NoDup_cons in Hnd as [Hnotin _].
    apply Forall_cons in Hco as [Hc1 Hco]. apply Forall_cons in Hco as [Hc2 _].
    f_equal. apply probeTask_comm; [done..|].
    intros Heq. apply Hnotin. rewrite Heq. by left.
  - rewrite IH1 by done. apply IH2.
    + by rewrite <- Hp1.
    + by rewrite <- Hp1.
Qed.

Lemma DetectScopes_any_schedule sched ctx sd :
  Permutation sched scopeTests ->
  DetectScopesIn sched ctx sd = DetectScopes ctx sd.
Proof.
  intros Hperm. unfold DetectScopes, DetectScopesIn. f_equal.
  symmetry. apply runProbes_Permutation.
  - by symmetry.
  - apply scopeTests_NoDup.
  - apply scopeTests_clientOnly.
Qed.

End Probing.

(** ** What a detection round leaves in the map *)

Section Detection.
Import provider vocabulary.

Ltac scope_ne := unfold not; intros; discriminate.

(** Reads of a map built from writes to literal scopes. *)
Ltac read_scopes :=
  repeat first
    [ rewrite HasScope_setScope_eq
    | rewrite HasScope_setScope_ne by scope_ne
    | rewrite HasScope_inferOne_hist
    | rewrite HasScope_inferOne_other by scope_ne ].

Lemma runProbes_scopeTests ctx sd :
  runProbes scopeTests ctx sd =
  setScope (setScope (setScope (setScope (setScope (setScope sd
    ScopeChannelsRead (testChannelsRead sd ctx))
    ScopeGroupsRead (testGroupsRead sd ctx))
    ScopeIMRead (testIMRead sd ctx))
    ScopeMPIMRead (testMPIMRead sd ctx))
    ScopeUsersRead (testUsersRead sd ctx))
    ScopeSearchRead (testSearchRead sd ctx).
Proof. reflexivity. Qed.

Lemma not_written_inv (s : Scope) :
  s ∉ writtenScopes ->
  s <> ScopeChannelsRead /\ s <> ScopeGroupsRead /\ s <> ScopeIMRead /\
  s <> ScopeMPIMRead /\ s <> ScopeUsersRead /\ s <> ScopeSearchRead /\
  s <> ScopeChannelsHistory /\ s <> ScopeGroupsHistory /\
  s <> ScopeIMHistory /\ s <> ScopeMPIMHistory.
Proof.
  unfold writtenScopes, probedScopes; simpl.
  rewrite !elem_of_cons, elem_of_nil. intuition.
Qed.

(** The answer of each probe is what the round records for its scope,
    whatever the map held before. *)
Lemma DetectScopes_probed ctx sd :
  HasScope (DetectScopes ctx sd) ScopeChannelsRead = testChannelsRead sd ctx /\
  HasScope (DetectScopes ctx sd) ScopeGroupsRead = testGroupsRead sd ctx /\
  HasScope (DetectScopes ctx sd) ScopeIMRead = testIMRead sd ctx /\
  HasScope (DetectScopes ctx sd) ScopeMPIMRead = testMPIMRead sd ctx /\
  HasScope (DetectScopes ctx sd) ScopeUsersRead = testUsersRead sd ctx /\
  HasScope (DetectScopes ctx sd) ScopeSearchRead = testSearchRead sd ctx.
Proof.
  unfold DetectScopes, DetectScopesIn, inferHistoryScopes.
  rewrite runProbes_scopeTests. repeat split; by read_scopes.
Qed.

(** A history scope is set when its read scope was found, and is left as
    it was otherwise. *)
Lemma DetectScopes_history ctx sd :
  HasScope (DetectScopes ctx sd) ScopeChannelsHistory =
    testChannelsRead sd ctx || HasScope sd ScopeChannelsHistory /\
  HasScope (DetectScopes ctx sd) ScopeGroupsHistory =
    testGroupsRead sd ctx || HasScope sd ScopeGroupsHistory /\
  HasScope (DetectScopes ctx sd) ScopeIMHistory =
    testIMRead sd ctx || HasScope sd ScopeIMHistory /\
  HasScope (DetectScopes ctx sd) ScopeMPIMHistory =
    testMPIMRead sd ctx || HasScope sd ScopeMPIMHistory.
Proof.
  unfold DetectScopes, DetectScopesIn, inferHistoryScopes.
  rewrite runProbes_scopeTests. repeat split; by read_scopes.
Qed.

(** Every other scope is left as it was. *)
Lemma DetectScopes_other ctx sd s :
  s ∉ writtenScopes -> HasScope (DetectScopes ctx sd) s = HasScope sd s.
Proof.
  intros Hs. apply not_written_inv in Hs.
  destruct Hs as (?&?&?&?&?&?&?&?&?&?).
  unfold DetectScopes, DetectScopesIn, inferHistoryScopes.
  rewrite runProbes_scopeTests.
  rewrite !HasScope_inferOne_other by done.
  by rewrite !HasScope_setScope_ne by done.
Qed.

Lemma client_DetectScopes ctx sd : client (DetectScopes ctx sd) = client sd.
Proof.
  unfold DetectScopes, DetectScopesIn, inferHistoryScopes.
  by rewrite !client_inferOne, client_runProbes.
Qed.

Lemma HasScope_NewScopeDetector c s : HasScope (NewScopeDetector c) s = false.
Proof. unfold HasScope, NewScopeDetector; simpl. by rewrite lookup_empty. Qed.

Lemma detectRounds_other rounds sd s :
  s ∉ writtenScopes -> HasScope (detectRounds rounds sd) s = HasScope sd s.
Proof.
  intros Hs. unfold detectRounds. revert sd.
  induction rounds as [|ctx rounds IH]; intros sd; simpl; [done|].
  by rewrite IH, DetectScopes_other.
Qed.

End Detection.

(** ** Properties of the probes and of a detection round *)

Section ScopeDetectorProperties.
Import provider vocabulary examples.

Lemma isMissingScopeError_spec (msg : string) :
  isMissingScopeError (errors_New msg) = true <->
  occurs_in "missing_scope" msg \/ occurs_in "not_allowed" msg \/
  occurs_in "access_denied" msg.
Proof.
  unfold isMissingScopeError, errors_New.
  rewrite !orb_true_iff, !Contains_spec. tauto.
Qed.

(** The messages of a rate limit and of a refused connection are not
    permission denials; [missing_scope] inside a longer message is. *)
Example rate_limit_is_not_denial : isMissingScopeError rateLimited = false.
Proof. reflexivity. Qed.

Example network_failure_is_not_denial :
  isMissingScopeError connectionRefused = false.
Proof. reflexivity. Qed.

Example wrapped_missing_scope_is_denial :
  isMissingScopeError (errors_New "slack: missing_scope (needed: im:read)") = true.
Proof. reflexivity. Qed.

(** Neither is a cancellation, bare or as the HTTP client wraps it, nor an
    expired deadline. *)
Example cancellation_is_not_denial :
  isMissingScopeError context_Canceled = false /\
  isMissingScopeError wrappedCanceled = false /\
  isMissingScopeError context_DeadlineExceeded = false.
Proof. repeat split. Qed.

(** The error each probe looks at is the one its call to the client
    returns. *)
Lemma listErr_call sd ctx (ty : string) :
  listErr sd ctx ty =
  snd (GetConversationsContext (client sd) ctx
         {| Cursor := ""; ExcludeArchived := false; Limit := 1; Types := [ty] |}).
Proof.
  unfold listErr, conversationsProbe.
  by destruct (GetConversationsContext _ _ _) as [[? ?] ?].
Qed.

Lemma usersErr_call sd ctx :
  usersErr sd ctx = snd (GetUsersContext (client sd) ctx 1).
Proof. unfold usersErr. by destruct (GetUsersContext _ _ _) as [? ?]. Qed.

Lemma searchErr_call sd ctx :
  searchErr sd ctx = snd (SearchContext (client sd) ctx "test" {| Count := 1 |}).
Proof.
  unfold searchErr. by destruct (SearchContext _ _ _ _) as [[? ?] ?].
Qed.

(** What a round records for the six probed scopes, in terms of what
    the client returned. *)
Lemma DetectScopes_records_calls ctx sd :
  HasScope (DetectScopes ctx sd) ScopeChannelsRead =
    negb (isMissingScopeError
            (snd (GetConversationsContext (client sd) ctx
                    {| Cursor := ""; ExcludeArchived := false; Limit := 1;
                       Types := ["public_channel"] |}))) /\
  HasScope (DetectScopes ctx sd) ScopeGroupsRead =
    negb (isMissingScopeError
            (snd (GetConversationsContext (client sd) ctx
                    {| Cursor := ""; ExcludeArchived := false; Limit := 1;
                       Types := ["private_channel"] |}))) /\
  HasScope (DetectScopes ctx sd) ScopeIMRead =
    negb (isMissingScopeError
            (snd (GetConversationsContext (client sd) ctx
                    {| Cursor := ""; ExcludeArchived := false; Limit := 1;
                       Types := ["im"] |}))) /\
  HasScope (DetectScopes ctx sd) ScopeMPIMRead =
    negb (isMissingScopeError
            (snd (GetConversationsContext (client sd) ctx
                    {| Cursor := ""; ExcludeArchived := false; Limit := 1;
                       Types := ["mpim"] |}))) /\
  HasScope (DetectScopes ctx sd) ScopeUsersRead =
    negb (isMissingScopeError (snd (GetUsersContext (client sd) ctx 1))) /\
  HasScope (DetectScopes ctx sd) ScopeSearchRead =
    negb (isMissingScopeError
            (snd (SearchContext (client sd) ctx "test" {| Count := 1 |}))).
Proof.
  rewrite <- !listErr_call, <- usersErr_call, <- searchErr_call.
  apply DetectScopes_probed.
Qed.

(** C1.  Each of the six probes records its scope as available exactly
    when the error returned by its remote call is not classified as a
    permission denial by [isMissingScopeError].  For channels:read,
    groups:read, im:read and mpim:read the call is the client's
    [GetConversationsContext] for one item of type public_channel,
    private_channel, im and mpim; for users:read it is [GetUsersContext]
    with limit 1; for search:read it is [SearchContext] for "test" with
    count 1.  The value recorded is the negation of the classifier on the
    error that call returned.  The classifier answers false on success
    ([nil]) and, on an error, answers true exactly when the message
    contains [missing_scope], [not_allowed] or [access_denied]; so success
    and every other error are recorded as available. *)
Theorem probe_available_iff_not_permission_denial
    (sd : ScopeDetector) (ctx : Context) :
  (HasScope (DetectScopes ctx sd) ScopeChannelsRead =
     negb (isMissingScopeError
             (snd (GetConversationsContext (client sd) ctx
                     {| Cursor := ""; ExcludeArchived := false; Limit := 1;
                        Types := ["public_channel"] |}))) /\
   HasScope (DetectScopes ctx sd) ScopeGroupsRead =
     negb (isMissingScopeError
             (snd (GetConversationsContext (client sd) ctx
                     {| Cursor := ""; ExcludeArchived := false; Limit := 1;
                        Types := ["private_channel"] |}))) /\
   HasScope (DetectScopes ctx sd) ScopeIMRead =
     negb (isMissingScopeError
             (snd (GetConversationsContext (client sd) ctx
                     {| Cursor := ""; ExcludeArchived := false; Limit := 1;
                        Types := ["im"] |}))) /\
   HasScope (DetectScopes ctx sd) ScopeMPIMRead =
     negb (isMissingScopeError
             (snd (GetConversationsContext (client sd) ctx
                     {| Cursor := ""; ExcludeArchived := false; Limit := 1;
                        Types := ["mpim"] |}))) /\
   HasScope (DetectScopes ctx sd) ScopeUsersRead =
     negb (isMissingScopeError (snd (GetUsersContext (client sd) ctx 1))) /\
   HasScope (DetectScopes ctx sd) ScopeSearchRead =
     negb (isMissingScopeError
             (snd (SearchContext (client sd) ctx "test" {| Count := 1 |})))) /\
  isMissingScopeError nil_error = false /\
  (forall msg : string,
      isMissingScopeError (errors_New msg) = false <->
      ~ (occurs_in "missing_scope" msg \/ occurs_in "not_allowed" msg \/
         occurs_in "access_denied" msg)).
Proof.
  split; [apply DetectScopes_records_calls|]. split; [reflexivity|].
  intros msg. rewrite <- isMissingScopeError_spec.
  by destruct (isMissingScopeError (errors_New msg)).
Qed.

(** C2.  After the detection round of a new detector, for each of the
    four read/history pairs (channels, groups, im, mpim), [HasScope] of
    the history scope is true if and only if [HasScope] of the read scope
    is true. *)
Theorem history_scope_iff_read_scope (c : SlackAPI) (ctx : Context) :
  Forall (fun p : Scope * Scope =>
            HasScope (detectedBy c ctx) (snd p) = true <->
            HasScope (detectedBy c ctx) (fst p) = true)
         historyPairs.
Proof.
  unfold detectedBy.
  destruct (DetectScopes_probed ctx (NewScopeDetector c)) as (Hc & Hg & Hi & Hm & _).
  destruct (DetectScopes_history ctx (NewScopeDetector c)) as (Hch & Hgh & Hih & Hmh).
  rewrite HasScope_NewScopeDetector, orb_false_r in Hch, Hgh, Hih, Hmh.
  repeat constructor; simpl; congruence.
Qed.

(** A later round on the same map only ever sets history scopes: one
    found in the first round stays although the remote service refuses
    its read scope now. *)
Lemma history_scope_kept_by_later_round :
  let first := detectedBy okClient context_Background in
  let refused := failingClient (errors_New "missing_scope") in
  let second :=
    DetectScopes context_Background
      {| client := refused; detected := detected first |} in
  HasScope second ScopeChannelsRead = false /\
  HasScope second ScopeChannelsHistory = true.
Proof. split; reflexivity. Qed.

(** The claim of C3 fails: under a cancelled context a client that
    honours cancellation returns [context.Canceled] from every call, and
    each of the six probed scopes ends up recorded as available. *)
Lemma cancelled_probe_recorded_available :
  (listErr (NewScopeDetector cancellableClient) cancelledContext "public_channel"
     = context_Canceled /\
   listErr (NewScopeDetector cancellableClient) cancelledContext "private_channel"
     = context_Canceled /\
   listErr (NewScopeDetector cancellableClient) cancelledContext "im"
     = context_Canceled /\
   listErr (NewScopeDetector cancellableClient) cancelledContext "mpim"
     = context_Canceled /\
   usersErr (NewScopeDetector cancellableClient) cancelledContext
     = context_Canceled /\
   searchErr (NewScopeDetector cancellableClient) cancelledContext
     = context_Canceled) /\
  Forall (fun s => HasScope (detectedBy cancellableClient cancelledContext) s = true)
         probedScopes.
Proof. split; [repeat split|repeat constructor]. Qed.

Lemma append_nil_l (s : string) : "" +:+ s = s.
Proof. reflexivity. Qed.

Lemma append_cons (a : ascii) (x s : string) :
  String a x +:+ s = String a (x +:+ s).
Proof. reflexivity. Qed.

(** A prefix of [x ++ suffix] is a prefix of [x], or runs over the end of
    [x] and goes on as a prefix of [suffix]. *)
Lemma HasPrefix_app (x suffix m : string) :
  strings.HasPrefix (x +:+ suffix) m = true ->
  strings.HasPrefix x m = true \/
  (String.length x < String.length m /\
   strings.HasPrefix suffix (string_drop (String.length x) m) = true).
Proof.
  unfold strings.HasPrefix. revert m.
  induction x as [|a x IH]; intros m.
  - rewrite append_nil_l. destruct m as [|b m]; [by left|].
    intros H. right. split; [cbn; lia | exact H].
  - rewrite append_cons. destruct m as [|b m]; [by left|].
    cbn [String.prefix String.length string_drop].
    destruct (Ascii.ascii_dec b a) as [_|_]; [|discriminate].
    intros H. destruct (IH m H) as [Hl|[Hlen Hr]]; [by left|].
    right. split; [lia | exact Hr].
Qed.

(** Appending [suffix] to a text without [m] gives a text without [m],
    provided no end of [m] is a start of [suffix]. *)
Lemma Contains_app_false (x suffix m : string) :
  strings.Contains x m = false ->
  (forall k, k < String.length m ->
             strings.HasPrefix suffix (string_drop k m) = false) ->
  strings.Contains suffix m = false ->
  strings.Contains (x +:+ suffix) m = false.
Proof.
  intros Hx Hover Hs. induction x as [|a x IH].
  - by rewrite append_nil_l.
  - rewrite append_cons. cbn [strings.Contains] in *.
    apply orb_false_iff in Hx as [Hp Hx]. apply orb_false_iff. split.
    + destruct (strings.HasPrefix (String a (x +:+ suffix)) m) eqn:Hpre; [|done].
      rewrite <- append_cons in Hpre.
      apply HasPrefix_app in Hpre as [Hl|[Hlen Hr]]; [congruence|].
      rewrite Hover in Hr by exact Hlen. discriminate.
    + by apply IH.
Qed.

(** No marker of a permission denial can begin in a wrapping text and
    end in "context canceled", and none lies within it; so a cancellation
    wrapped in a text that carries no marker is no permission denial. *)
Lemma wrapped_cancellation_not_denial (wrap : string) :
  isMissingScopeError (errors_New wrap) = false ->
  isMissingScopeError (errors_New (wrap +:+ "context canceled")) = false.
Proof.
  unfold isMissingScopeError, errors_New.
  intros H. apply orb_false_iff in H as [H Ha].
  apply orb_false_iff in H as [Hm Hn].
  rewrite !Contains_app_false; try done;
    intros k Hk; cbn in Hk;
    do 13 (destruct k as [|k]; [first [reflexivity | lia]|]); lia.
Qed.

(** C3, amended.  For every probed permission, if the probe's remote call
    returns a cancellation error, that is [context.Canceled] itself or
    wrapped by the client behind a text that carries no permission-denial
    marker (as a [url.Error] does), the permission is recorded as
    available in the finalized capability set. *)
Theorem cancelled_probe_is_available
    (sd : ScopeDetector) (ctx : Context) (wrap : string) :
  isMissingScopeError (errors_New wrap) = false ->
  (snd (GetConversationsContext (client sd) ctx
          {| Cursor := ""; ExcludeArchived := false; Limit := 1;
             Types := ["public_channel"] |})
     = errors_New (wrap +:+ "context canceled") ->
   HasScope (DetectScopes ctx sd) ScopeChannelsRead = true) /\
  (snd (GetConversationsContext (client sd) ctx
          {| Cursor := ""; ExcludeArchived := false; Limit := 1;
             Types := ["private_channel"] |})
     = errors_New (wrap +:+ "context canceled") ->
   HasScope (DetectScopes ctx sd) ScopeGroupsRead = true) /\
  (snd (GetConversationsContext (client sd) ctx
          {| Cursor := ""; ExcludeArchived := false; Limit := 1;
             Types := ["im"] |})
     = errors_New (wrap +:+ "context canceled") ->
   HasScope (DetectScopes ctx sd) ScopeIMRead = true) /\
  (snd (GetConversationsContext (client sd) ctx
          {| Cursor := ""; ExcludeArchived := false; Limit := 1;
             Types := ["mpim"] |})
     = errors_New (wrap +:+ "context canceled") ->
   HasScope (DetectScopes ctx sd) ScopeMPIMRead = true) /\
  (snd (GetUsersContext (client sd) ctx 1)
     = errors_New (wrap +:+ "context canceled") ->
   HasScope (DetectScopes ctx sd) ScopeUsersRead = true) /\
  (snd (SearchContext (client sd) ctx "test" {| Count := 1 |})
     = errors_New (wrap +:+ "context canceled") ->
   HasScope (DetectScopes ctx sd) ScopeSearchRead = true).
Proof.
  intros Hwrap. apply wrapped_cancellation_not_denial in Hwrap.
  destruct (DetectScopes_records_calls ctx sd) as (Hc & Hg & Hi & Hm & Hu & Hs).
  rewrite Hc, Hg, Hi, Hm, Hu, Hs.
  repeat split; intros ->; by rewrite Hwrap.
Qed.

Lemma cancelled_probe_is_available_witness :
  (HasScope (DetectScopes cancelledContext (NewScopeDetector cancellableClient))
            ScopeChannelsRead = true /\
   HasScope (DetectScopes cancelledContext (NewScopeDetector cancellableClient))
            ScopeSearchRead = true) /\
  (HasScope (DetectScopes context_Background
               (NewScopeDetector cancellation.httpCancelledClient))
            ScopeChannelsRead = true /\
   HasScope (DetectScopes context_Background
               (NewScopeDetector cancellation.httpCancelledClient))
            ScopeUsersRead = true).
Proof.
  pose proof (cancelled_probe_is_available
                (NewScopeDetector cancellableClient) cancelledContext ""
                eq_refl)
    as (Hc & _ & _ & _ & _ & Hs).
  pose proof (cancelled_probe_is_available
                (NewScopeDetector cancellation.httpCancelledClient)
                context_Background cancellation.urlErrorPrefix eq_refl)
    as (Hc' & _ & _ & _ & Hu' & _).
  split; split; [apply Hc | apply Hs | apply Hc' | apply Hu']; reflexivity.
Defined.

Lemma elem_of_fst_filter (f : string * Scope -> bool)
    (l : list (string * Scope)) (ty : string) :
  ty ∈ map fst (List.filter f l) <->
  exists s, (ty, s) ∈ l /\ f (ty, s) = true.
Proof.
  rewrite list_elem_of_In, in_map_iff. split.
  - intros [[ty' s] [Hfst Hin]]. simpl in Hfst. subst ty'.
    apply filter_In in Hin as [Hin Hf]. exists s.
    by rewrite list_elem_of_In.
  - intros [s [Hin Hf]]. exists (ty, s). split; [done|].
    apply filter_In. by rewrite <- list_elem_of_In.
Qed.

(** C4.  For every capability set, [AvailableChannelTypes] is the fixed
    list public_channel, private_channel, im, mpim with exactly the types
    kept whose read scope is recorded available, in that order; so a type
    is in the result if and only if its read scope is available. *)
Theorem AvailableChannelTypes_exact (sd : ScopeDetector) :
  AvailableChannelTypes sd =
    map fst (List.filter (fun p => HasScope sd (snd p)) channelTypes) /\
  (forall ty : string,
      ty ∈ AvailableChannelTypes sd <->
      exists s, (ty, s) ∈ channelTypes /\ HasScope sd s = true).
Proof.
  assert (AvailableChannelTypes sd =
          map fst (List.filter (fun p => HasScope sd (snd p)) channelTypes)) as Heq.
  { unfold AvailableChannelTypes, channelTypes, appendIf; simpl.
    by destruct (HasScope sd ScopeChannelsRead), (HasScope sd ScopeGroupsRead),
      (HasScope sd ScopeIMRead), (HasScope sd ScopeMPIMRead). }
  split; [exact Heq|]. intros ty. rewrite Heq. apply elem_of_fst_filter.
Qed.

Lemma write_scopes_not_written :
  (ScopeChatWrite ∉ writtenScopes) /\ (ScopeIMWrite ∉ writtenScopes) /\
  (ScopeMPIMWrite ∉ writtenScopes).
Proof.
  unfold writtenScopes, probedScopes; simpl.
  rewrite !elem_of_cons, !elem_of_nil. intuition discriminate.
Qed.

(** C5.  If, on a new detector, the probes of channels:read and
    groups:read answer available and those of im:read, mpim:read,
    users:read and search:read answer unavailable, then after detection
    channels:read, groups:read, channels:history and groups:history are
    true, every im, mpim, users and search scope is false, and
    [AvailableChannelTypes] is public_channel, private_channel in that
    order. *)
Theorem channels_only_scenario (c : SlackAPI) (ctx : Context) :
  testChannelsRead (NewScopeDetector c) ctx = true ->
  testGroupsRead (NewScopeDetector c) ctx = true ->
  testIMRead (NewScopeDetector c) ctx = false ->
  testMPIMRead (NewScopeDetector c) ctx = false ->
  testUsersRead (NewScopeDetector c) ctx = false ->
  testSearchRead (NewScopeDetector c) ctx = false ->
  Forall (fun s => HasScope (detectedBy c ctx) s = true)
    [ScopeChannelsRead; ScopeGroupsRead; ScopeChannelsHistory; ScopeGroupsHistory] /\
  Forall (fun s => HasScope (detectedBy c ctx) s = false)
    [ScopeIMRead; ScopeIMHistory; ScopeIMWrite;
     ScopeMPIMRead; ScopeMPIMHistory; ScopeMPIMWrite;
     ScopeUsersRead; ScopeSearchRead] /\
  AvailableChannelTypes (detectedBy c ctx) = ["public_channel"; "private_channel"].
Proof.
  intros Tc Tg Ti Tm Tu Ts. unfold detectedBy.
  destruct (DetectScopes_probed ctx (NewScopeDetector c)) as (Hc & Hg & Hi & Hm & Hu & Hs).
  destruct (DetectScopes_history ctx (NewScopeDetector c)) as (Hch & Hgh & Hih & Hmh).
  rewrite HasScope_NewScopeDetector, orb_false_r in Hch, Hgh, Hih, Hmh.
  assert (forall s, s ∉ writtenScopes ->
            HasScope (DetectScopes ctx (NewScopeDetector c)) s = false) as Hw.
  { intros s Hs'. by rewrite DetectScopes_other, HasScope_NewScopeDetector. }
  destruct write_scopes_not_written as (_ & Hiw & Hmw).
  split; [|split].
  - repeat constructor; congruence.
  - repeat constructor; try congruence; by apply Hw.
  - unfold AvailableChannelTypes, appendIf. by rewrite Hc, Hg, Hi, Hm, Tc, Tg, Ti, Tm.
Qed.

Lemma channels_only_scenario_witness :
  AvailableChannelTypes (detectedBy channelsOnlyClient context_Background)
    = ["public_channel"; "private_channel"].
Proof.
  apply (channels_only_scenario channelsOnlyClient context_Background);
    reflexivity.
Defined.

(** The entries a round leaves for the six probed scopes, in terms of
    what the client returned. *)
Lemma DetectScopes_lookup_calls ctx sd :
  detected (DetectScopes ctx sd) !! ScopeChannelsRead =
    Some (negb (isMissingScopeError
                  (snd (GetConversationsContext (client sd) ctx
                          {| Cursor := ""; ExcludeArchived := false; Limit := 1;
                             Types := ["public_channel"] |})))) /\
  detected (DetectScopes ctx sd) !! ScopeGroupsRead =
    Some (negb (isMissingScopeError
                  (snd (GetConversationsContext (client sd) ctx
                          {| Cursor := ""; ExcludeArchived := false; Limit := 1;
                             Types := ["private_channel"] |})))) /\
  detected (DetectScopes ctx sd) !! ScopeIMRead =
    Some (negb (isMissingScopeError
                  (snd (GetConversationsContext (client sd) ctx
                          {| Cursor := ""; ExcludeArchived := false; Limit := 1;
                             Types := ["im"] |})))) /\
  detected (DetectScopes ctx sd) !! ScopeMPIMRead =
    Some (negb (isMissingScopeError
                  (snd (GetConversationsContext (client sd) ctx
                          {| Cursor := ""; ExcludeArchived := false; Limit := 1;
                             Types := ["mpim"] |})))) /\
  detected (DetectScopes ctx sd) !! ScopeUsersRead =
    Some (negb (isMissingScopeError (snd (GetUsersContext (client sd) ctx 1)))) /\
  detected (DetectScopes ctx sd) !! ScopeSearchRead =
    Some (negb (isMissingScopeError
                  (snd (SearchContext (client sd) ctx "test" {| Count := 1 |})))).
Proof.
  rewrite <- !listErr_call, <- usersErr_call, <- searchErr_call.
  unfold DetectScopes, DetectScopesIn, inferHistoryScopes.
  rewrite runProbes_scopeTests. unfold inferOne.
  repeat match goal with
         | |- context [if ?b then _ else _] => destruct b
         end;
    repeat split; unfold setScope; cbn [detected];
    repeat first [ rewrite lookup_insert_eq
                 | rewrite lookup_insert_ne by discriminate ];
    reflexivity.
Qed.

Lemma detected_setScope_ext x y s b :
  detected x = detected y -> detected (setScope x s b) = detected (setScope y s b).
Proof. unfold setScope; cbn [detected]. by intros ->. Qed.

Lemma detected_inferOne_ext rd hist x y :
  detected x = detected y ->
  detected (inferOne rd hist x) = detected (inferOne rd hist y).
Proof.
  intros H. unfold inferOne, HasScope. rewrite H.
  destruct (default false (detected y !! rd)); [|done].
  by apply detected_setScope_ext.
Qed.

(** The map a round leaves is a function of the map it started from and
    of the six answers of the probes; nothing else of what the client
    returned gets into it. *)
Lemma detected_DetectScopes_ext ctx ctx' sd sd' :
  detected sd' = detected sd ->
  testChannelsRead sd' ctx' = testChannelsRead sd ctx ->
  testGroupsRead sd' ctx' = testGroupsRead sd ctx ->
  testIMRead sd' ctx' = testIMRead sd ctx ->
  testMPIMRead sd' ctx' = testMPIMRead sd ctx ->
  testUsersRead sd' ctx' = testUsersRead sd ctx ->
  testSearchRead sd' ctx' = testSearchRead sd ctx ->
  detected (DetectScopes ctx' sd') = detected (DetectScopes ctx sd).
Proof.
  intros Hd Hc Hg Hi Hm Hu Hs. unfold DetectScopes, DetectScopesIn.
  rewrite !runProbes_scopeTests, Hc, Hg, Hi, Hm, Hu, Hs.
  unfold inferHistoryScopes.
  repeat apply detected_inferOne_ext. by repeat apply detected_setScope_ext.
Qed.

(** C6.  [DetectScopes] returns no error.  Whatever the client returns to
    the six probes (success, a permission denial or any other error) and
    in whatever order the goroutines write, the map it leaves holds a
    boolean entry for each of channels:read, groups:read, im:read,
    mpim:read, users:read and search:read: whether the error of that
    scope's call is no permission denial.  The errors themselves do not
    get out: two rounds from the same map whose six calls are classified
    alike leave the same map, whatever else the errors say. *)
Theorem DetectScopes_records_every_probe
    (sched : list scopeTest) (ctx : Context) (sd : ScopeDetector) :
  Permutation sched scopeTests ->
  (detected (DetectScopesIn sched ctx sd) !! ScopeChannelsRead =
     Some (negb (isMissingScopeError
                   (snd (GetConversationsContext (client sd) ctx
                           {| Cursor := ""; ExcludeArchived := false; Limit := 1;
                              Types := ["public_channel"] |})))) /\
   detected (DetectScopesIn sched ctx sd) !! ScopeGroupsRead =
     Some (negb (isMissingScopeError
                   (snd (GetConversationsContext (client sd) ctx
                           {| Cursor := ""; ExcludeArchived := false; Limit := 1;
                              Types := ["private_channel"] |})))) /\
   detected (DetectScopesIn sched ctx sd) !! ScopeIMRead =
     Some (negb (isMissingScopeError
                   (snd (GetConversationsContext (client sd) ctx
                           {| Cursor := ""; ExcludeArchived := false; Limit := 1;
                              Types := ["im"] |})))) /\
   detected (DetectScopesIn sched ctx sd) !! ScopeMPIMRead =
     Some (negb (isMissingScopeError
                   (snd (GetConversationsContext (client sd) ctx
                           {| Cursor := ""; ExcludeArchived := false; Limit := 1;
                              Types := ["mpim"] |})))) /\
   detected (DetectScopesIn sched ctx sd) !! ScopeUsersRead =
     Some (negb (isMissingScopeError (snd (GetUsersContext (client sd) ctx 1)))) /\
   detected (DetectScopesIn sched ctx sd) !! ScopeSearchRead =
     Some (negb (isMissingScopeError
                   (snd (SearchContext (client sd) ctx "test" {| Count := 1 |}))))) /\
  (forall (sd' : ScopeDetector) (ctx' : Context),
      detected sd' = detected sd ->
      Forall (fun ty =>
                isMissingScopeError
                  (snd (GetConversationsContext (client sd') ctx'
                          {| Cursor := ""; ExcludeArchived := false; Limit := 1;
                             Types := [ty] |})) =
                isMissingScopeError
                  (snd (GetConversationsContext (client sd) ctx
                          {| Cursor := ""; ExcludeArchived := false; Limit := 1;
                             Types := [ty] |})))
             ["public_channel"; "private_channel"; "im"; "mpim"] ->
      isMissingScopeError (snd (GetUsersContext (client sd') ctx' 1)) =
      isMissingScopeError (snd (GetUsersContext (client sd) ctx 1)) ->
      isMissingScopeError
        (snd (SearchContext (client sd') ctx' "test" {| Count := 1 |})) =
      isMissingScopeError
        (snd (SearchContext (client sd) ctx "test" {| Count := 1 |})) ->
      detected (DetectScopesIn sched ctx' sd') =
      detected (DetectScopesIn sched ctx sd)).
Proof.
  intros Hperm. rewrite (DetectScopes_any_schedule sched ctx sd Hperm).
  split; [apply DetectScopes_lookup_calls|].
  intros sd' ctx' Hd Hlist Hu Hs.
  rewrite (DetectScopes_any_schedule sched ctx' sd' Hperm).
  apply Forall_cons in Hlist as [Hc Hlist]. apply Forall_cons in Hlist as [Hg Hlist].
  apply Forall_cons in Hlist as [Hi Hlist]. apply Forall_cons in Hlist as [Hm _].
  apply detected_DetectScopes_ext; [exact Hd|..];
    unfold testChannelsRead, testGroupsRead, testIMRead, testMPIMRead,
      testUsersRead, testSearchRead;
    rewrite ?listErr_call, ?usersErr_call, ?searchErr_call; by f_equal.
Qed.

Lemma DetectScopes_records_every_probe_witness :
  detected (DetectScopesIn (rev scopeTests) cancelledContext
              (NewScopeDetector channelsOnlyClient)) !! ScopeChannelsRead
    = Some true /\
  detected (DetectScopesIn (rev scopeTests) cancelledContext
              (NewScopeDetector channelsOnlyClient)) !! ScopeSearchRead
    = Some false /\
  detected (DetectScopesIn (rev scopeTests) context_Background
              (NewScopeDetector (failingClient rateLimited))) =
  detected (DetectScopesIn (rev scopeTests) cancelledContext
              (NewScopeDetector okClient)).
Proof.
  assert (Permutation (rev scopeTests) scopeTests) as Hperm
    by (symmetry; apply Permutation_rev).
  destruct (DetectScopes_records_every_probe (rev scopeTests) cancelledContext
              (NewScopeDetector channelsOnlyClient) Hperm)
    as [(Hc & _ & _ & _ & _ & Hs) _].
  destruct (DetectScopes_records_every_probe (rev scopeTests) cancelledContext
              (NewScopeDetector okClient) Hperm)
    as [_ Hsame].
  split; [exact Hc|]. split; [exact Hs|].
  apply Hsame; [reflexivity | repeat constructor | reflexivity | reflexivity].
Defined.

(** When every probe is refused, the capability set is the all-false
    one. *)
Lemma all_refused_all_false (s : Scope) :
  HasScope (detectedBy (failingClient (errors_New "missing_scope"))
                       context_Background) s = false.
Proof.
  destruct (decide (s ∈ writtenScopes)) as [Hin|Hout].
  - unfold writtenScopes, probedScopes in Hin; simpl in Hin.
    rewrite !elem_of_cons, elem_of_nil in Hin.
    repeat (destruct Hin as [->|Hin]; [reflexivity|]). destruct Hin.
  - unfold detectedBy. by rewrite DetectScopes_other, HasScope_NewScopeDetector.
Qed.

(** C9.  [HasScope] is false for every scope on a new detector (before
    [DetectScopes] has run), and stays false for chat:write, im:write and
    mpim:write, and for any other scope that is neither probed nor
    inferred, after any number of detection rounds. *)
Theorem unwritten_scope_is_unavailable (c : SlackAPI) :
  (forall s : Scope, HasScope (NewScopeDetector c) s = false) /\
  (forall rounds : list Context,
      Forall (fun s => HasScope (detectRounds rounds (NewScopeDetector c)) s = false)
             [ScopeChatWrite; ScopeIMWrite; ScopeMPIMWrite]) /\
  (forall (rounds : list Context) (s : Scope),
      s ∉ writtenScopes ->
      HasScope (detectRounds rounds (NewScopeDetector c)) s = false).
Proof.
  assert (forall (rounds : list Context) (s : Scope),
             s ∉ writtenScopes ->
             HasScope (detectRounds rounds (NewScopeDetector c)) s = false) as Hw.
  { intros rounds s Hs. by rewrite detectRounds_other, HasScope_NewScopeDetector. }
  destruct write_scopes_not_written as (Hcw & Hiw & Hmw).
  split; [apply HasScope_NewScopeDetector|]. split; [|exact Hw].
  intros rounds. repeat constructor; by apply Hw.
Qed.

Lemma unwritten_scope_is_unavailable_witness :
  HasScope (detectRounds [context_Background; cancelledContext]
              (NewScopeDetector okClient)) "files:read" = false.
Proof.
  apply (proj2 (proj2 (unwritten_scope_is_unavailable okClient))).
  unfold writtenScopes, probedScopes; simpl.
  rewrite !elem_of_cons, elem_of_nil. intuition discriminate.
Defined.

(** C10.  After the detection round of a new detector,
    [HasAnyHistoryScope] and [HasAnyReadScope] return the same boolean. *)
Theorem HasAnyHistoryScope_eq_HasAnyReadScope (c : SlackAPI) (ctx : Context) :
  HasAnyHistoryScope (detectedBy c ctx) = HasAnyReadScope (detectedBy c ctx).
Proof.
  unfold detectedBy, HasAnyHistoryScope, HasAnyReadScope.
  destruct (DetectScopes_probed ctx (NewScopeDetector c)) as (Hc & Hg & Hi & Hm & _).
  destruct (DetectScopes_history ctx (NewScopeDetector c)) as (Hch & Hgh & Hih & Hmh).
  rewrite Hc, Hg, Hi, Hm, Hch, Hgh, Hih, Hmh.
  by rewrite !HasScope_NewScopeDetector, !orb_false_r.
Qed.

End ScopeDetectorProperties.

(** ** Channel reference resolution *)

Section Resolution.
Import handler vocabulary examples.

Lemma prefixed_nonempty ref : prefixed ref = true -> ref <> "".
Proof. intros Hp ->. discriminate. Qed.

Lemma resolveChannelID_unknown maps ref :
  prefixed ref = true -> ChannelsInv maps !! ref = None ->
  resolveChannelID maps ref = inl (ChannelNotFound ref).
Proof.
  unfold prefixed, resolveChannelID. intros -> ->. reflexivity.
Qed.

Lemma resolveChannelID_bare maps ref :
  prefixed ref = false -> resolveChannelID maps ref = inr ref.
Proof. unfold prefixed, resolveChannelID. by intros ->. Qed.

Lemma resolveChannelID_known maps ref chn :
  prefixed ref = true -> ChannelsInv maps !! ref = Some chn ->
  resolveChannelID maps ref =
  inr (ID (default zeroChannel (Channels maps !! chn))).
Proof. unfold prefixed, resolveChannelID. by intros -> ->. Qed.

(** C7.  In an authenticated call of [MessagesWithAttachmentsHandler], a
    [channel_id] that starts with [#] or [@] and has no entry in the
    inverse map of the directory snapshot makes the handler return the
    error "channel not found" for that reference, not parameters with
    some identifier; a non-empty [channel_id] without such a prefix is
    passed to Slack unchanged as the channel identifier. *)
Theorem unknown_reference_is_not_found
    (err : error) (maps : ChannelsCache) (request : CallToolRequest)
    (ref : string) :
  arg_channel_id request = Some ref ->
  (prefixed ref = true -> ChannelsInv maps !! ref = None ->
     MessagesWithAttachmentsHandler_params (true, err) maps request
       = inl (ChannelNotFound ref)) /\
  (prefixed ref = false -> ref <> "" ->
     exists params,
       MessagesWithAttachmentsHandler_params (true, err) maps request
         = inr params /\
       ChannelID params = ref).
Proof.
  intros Harg. unfold MessagesWithAttachmentsHandler_params; simpl.
  rewrite Harg; simpl. split.
  - intros Hp Hnone.
    destruct (String.eqb_spec ref "") as [->|_]; [discriminate|].
    by rewrite resolveChannelID_unknown.
  - intros Hp Hne.
    destruct (String.eqb_spec ref "") as [->|_]; [done|].
    rewrite resolveChannelID_bare by done. eauto.
Qed.

Lemma unknown_reference_is_not_found_witness :
  MessagesWithAttachmentsHandler_params (true, nil_error) directory
    (callFor "#unknown-channel") = inl (ChannelNotFound "#unknown-channel") /\
  exists params,
    MessagesWithAttachmentsHandler_params (true, nil_error) directory
      (callFor "C0123456789") = inr params /\
    ChannelID params = "C0123456789".
Proof.
  split.
  - apply (unknown_reference_is_not_found nil_error directory
             (callFor "#unknown-channel") "#unknown-channel");
      reflexivity.
  - apply (unknown_reference_is_not_found nil_error directory
             (callFor "C0123456789") "C0123456789");
      [reflexivity | reflexivity | discriminate].
Defined.

(** A name the snapshot holds resolves to the identifier stored for
    it. *)
Example known_reference_resolves :
  resolveChannelID directory "#general" = inr "C0123456789".
Proof. reflexivity. Qed.

End Resolution.

(** ** Credential priority *)

Section CredentialPriority.
Import credentials examples.

Lemma SourceName_eqb_eq a b : SourceName_eqb a b = true <-> a = b.
Proof. destruct a, b; simpl; split; (done || discriminate). Qed.

Lemma supplied_is_Some n sources :
  is_Some (supplied n sources) <-> exists v, (n, v) ∈ sources.
Proof.
  induction sources as [|[m w] rest IH]; simpl.
  - split; [intros [v Hv]; discriminate | intros [v Hv]; by apply elem_of_nil in Hv].
  - destruct (SourceName_eqb n m) eqn:Hnm.
    + apply SourceName_eqb_eq in Hnm as ->.
      split; [intros _; exists w; by left | eauto].
    + rewrite IH. split; intros [v Hv]; exists v.
      * by right.
      * apply elem_of_cons in Hv as [Heq|Hin]; [|done].
        injection Heq as -> ->.
        assert (SourceName_eqb m m = true) as Hmm by by apply SourceName_eqb_eq.
        congruence.
Qed.

Lemma present_Permutation n sources sources' :
  Permutation sources sources' -> present n sources = present n sources'.
Proof.
  intros Hperm. unfold present. apply bool_decide_ext.
  rewrite !supplied_is_Some. by setoid_rewrite Hperm.
Qed.

Lemma present_true n sources :
  present n sources = true <-> is_Some (supplied n sources).
Proof. unfold present. apply bool_decide_eq_true. Qed.

Lemma present_false n sources :
  present n sources = false <-> supplied n sources = None.
Proof.
  unfold present. rewrite bool_decide_eq_false, <- eq_None_not_Some. done.
Qed.

(** The mode selected depends on which values are present only. *)
Lemma selectedKind_by_presence sources :
  selectedKind sources =
  if present XOXP sources then inr KindUser
  else if present XOXB sources then inr KindBot
  else match present XOXC sources, present XOXD sources with
       | true, true => inr KindSession
       | false, false => inl NoCredential
       | _, _ => inl IncompletePair
       end.
Proof.
  unfold selectedKind, Resolve, present.
  destruct (supplied XOXP sources); [done|].
  destruct (supplied XOXB sources); [done|].
  by destruct (supplied XOXC sources), (supplied XOXD sources).
Qed.

(** With one value per name at most, the value read under a name is the
    one listed, wherever it stands. *)
Lemma supplied_Some_unique n v sources :
  NoDup (map fst sources) ->
  supplied n sources = Some v <-> (n, v) ∈ sources.
Proof.
  induction sources as [|[m w] rest IH]; simpl; intros Hnd.
  - split; [discriminate | intros Hin; by apply elem_of_nil in Hin].
  - apply NoDup_cons in Hnd as [Hm Hnd].
    destruct (SourceName_eqb n m) eqn:Hnm.
    + apply SourceName_eqb_eq in Hnm as ->. split.
      * intros [= ->]. by left.
      * intros [Heq|Hin]%elem_of_cons; [congruence|].
        exfalso. apply Hm. apply list_elem_of_fmap. by exists (m, v).
    + rewrite IH by done. split; [by right|].
      intros [Heq|Hin]%elem_of_cons; [|done].
      injection Heq as -> ->.
      assert (SourceName_eqb m m = true) as Hmm by by apply SourceName_eqb_eq.
      congruence.
Qed.

Lemma supplied_Permutation n sources sources' :
  NoDup (map fst sources) -> Permutation sources sources' ->
  supplied n sources' = supplied n sources.
Proof.
  intros Hnd Hperm.
  assert (NoDup (map fst sources')) as Hnd' by by rewrite <- Hperm.
  destruct (supplied n sources) as [v|] eqn:Hs.
  - apply supplied_Some_unique in Hs; [|done].
    apply supplied_Some_unique; [done|]. by rewrite <- Hperm.
  - destruct (supplied n sources') as [v'|] eqn:Hs'; [|done].
    apply supplied_Some_unique in Hs'; [|done].
    rewrite <- Hperm in Hs'. apply supplied_Some_unique in Hs'; [|done].
    congruence.
Qed.

(** C8.  Whatever credential sources are supplied, the mode selected is
    the user token if one is present, else the bot token if one is
    present, else the session pair if both of its parts are present; and
    presenting the same sources in another order selects the same mode,
    and the same credential when each name is given one value at most. *)
Theorem resolution_follows_priority (sources : list (SourceName * string)) :
  (present XOXP sources = true -> selectedKind sources = inr KindUser) /\
  (present XOXP sources = false -> present XOXB sources = true ->
     selectedKind sources = inr KindBot) /\
  (present XOXP sources = false -> present XOXB sources = false ->
     present XOXC sources = true -> present XOXD sources = true ->
     selectedKind sources = inr KindSession) /\
  (forall sources', Permutation sources sources' ->
     selectedKind sources' = selectedKind sources) /\
  (forall sources', Permutation sources sources' ->
     NoDup (map fst sources) -> Resolve sources' = Resolve sources).
Proof.
  repeat split.
  - intros Hp. by rewrite selectedKind_by_presence, Hp.
  - intros Hp Hb. by rewrite selectedKind_by_presence, Hp, Hb.
  - intros Hp Hb Hc Hd. by rewrite selectedKind_by_presence, Hp, Hb, Hc, Hd.
  - intros sources' Hperm. rewrite !selectedKind_by_presence.
    by rewrite !(present_Permutation _ sources sources' Hperm).
  - intros sources' Hperm Hnd. unfold Resolve.
    by rewrite !(supplied_Permutation _ sources sources' Hnd Hperm).
Qed.

Lemma resolution_follows_priority_witness :
  selectedKind allSources = inr KindUser /\
  Resolve (rev allSources) = Resolve allSources.
Proof.
  pose proof (resolution_follows_priority allSources) as (Hu & _ & _ & _ & Hr).
  split.
  - apply Hu. reflexivity.
  - apply Hr; [apply Permutation_rev|].
    simpl. repeat (apply NoDup_cons; split;
      [rewrite ?elem_of_cons, elem_of_nil; intuition discriminate|]).
    apply NoDup_nil_2.
Defined.

Example all_sources_resolve_to_user_token :
  Resolve allSources = inr (UserToken "xoxp-user").
Proof. reflexivity. Qed.

Example bot_before_session_pair :
  Resolve [(XOXC, "xoxc-session"); (XOXB, "xoxb-bot"); (XOXD, "xoxd-cookie")]
    = inr (BotToken "xoxb-bot").
Proof. reflexivity. Qed.

End CredentialPriority.


(** ** Further properties of the scope detector *)

Section DetectorExtras.
Import provider vocabulary examples provider_log.

Lemma append_assoc (a b c : string) : (a +:+ b) +:+ c = a +:+ b +:+ c.
Proof.
  induction a as [|x a IH]; [done|].
  change (String x ((a +:+ b) +:+ c) = String x (a +:+ b +:+ c)).
  by f_equal.
Qed.

Lemma occurs_in_wrapped (sub s before after : string) :
  occurs_in sub s -> occurs_in sub (before +:+ s +:+ after).
Proof.
  intros (b & a & ->). exists (before +:+ b), (a +:+ after).
  by rewrite !append_assoc.
Qed.

(** X1.  Wrapping keeps a permission denial one: when the message of an
    error is classified as a denial, so is every message that contains it,
    whatever text stands before and after it. *)
Theorem denial_survives_wrapping (msg before after : string) :
  isMissingScopeError (errors_New msg) = true ->
  isMissingScopeError (errors_New (before +:+ msg +:+ after)) = true.
Proof.
  rewrite !isMissingScopeError_spec.
  intros [H|[H|H]]; [left|right; left|right; right];
    by apply occurs_in_wrapped.
Qed.

Lemma denial_survives_wrapping_witness :
  isMissingScopeError
    (errors_New ("slack: " +:+ "missing_scope" +:+ " (needed: im:read)")) = true.
Proof.
  apply (denial_survives_wrapping "missing_scope" "slack: " " (needed: im:read)").
  reflexivity.
Defined.

(** X2.  The order in which the six goroutines of [DetectScopes] get to
    write does not matter: any two schedules of the six probes leave the
    same detector. *)
Theorem DetectScopes_schedule_independent
    (sched1 sched2 : list scopeTest) (ctx : Context) (sd : ScopeDetector) :
  Permutation sched1 scopeTests -> Permutation sched2 scopeTests ->
  DetectScopesIn sched1 ctx sd = DetectScopesIn sched2 ctx sd.
Proof.
  intros H1 H2. unfold DetectScopesIn. f_equal.
  apply runProbes_Permutation.
  - by rewrite H1, H2.
  - rewrite H1. apply scopeTests_NoDup.
  - rewrite H1. apply scopeTests_clientOnly.
Qed.

Lemma DetectScopes_schedule_independent_witness :
  DetectScopesIn (rev scopeTests) context_Background
    (NewScopeDetector channelsOnlyClient) =
  DetectScopesIn scopeTests context_Background
    (NewScopeDetector channelsOnlyClient).
Proof.
  apply (DetectScopes_schedule_independent (rev scopeTests) scopeTests).
  - symmetry. apply Permutation_rev.
  - reflexivity.
Defined.

Lemma setScope_same sd s b :
  detected sd !! s = Some b -> setScope sd s b = sd.
Proof.
  intros Hs. destruct sd as [c m]. unfold setScope; simpl in *.
  f_equal. by apply insert_id.
Qed.

Lemma detected_setScope_eq sd s b : detected (setScope sd s b) !! s = Some b.
Proof. unfold setScope; simpl. apply lookup_insert_eq. Qed.

Lemma detected_setScope_ne sd s s' b :
  s <> s' -> detected (setScope sd s b) !! s' = detected sd !! s'.
Proof. intros Hne. unfold setScope; simpl. by apply lookup_insert_ne. Qed.

Lemma detected_inferOne_other rd hist sd s :
  hist <> s -> detected (inferOne rd hist sd) !! s = detected sd !! s.
Proof.
  intros Hne. unfold inferOne. destruct (HasScope sd rd); [|done].
  by apply detected_setScope_ne.
Qed.

(** A guarded write whose read scope is set leaves the history scope
    set. *)
Lemma detected_inferOne_set rd hist sd :
  HasScope sd rd = true -> detected (inferOne rd hist sd) !! hist = Some true.
Proof.
  intros Hrd. unfold inferOne. rewrite Hrd. apply detected_setScope_eq.
Qed.

(** A guarded write changes nothing when the history scope is set
    already, or when the read scope is not. *)
Lemma inferOne_same rd hist sd :
  (HasScope sd rd = true -> detected sd !! hist = Some true) ->
  inferOne rd hist sd = sd.
Proof.
  intros H. unfold inferOne. destruct (HasScope sd rd); [|done].
  by apply setScope_same, H.
Qed.

Ltac lookup_ne := unfold not; intros; discriminate.

(** After a round the map holds the answer of each probe. *)
Lemma DetectScopes_detected_probed ctx sd :
  Forall (fun st => detected (DetectScopes ctx sd) !! scope st = Some (test st sd ctx))
         scopeTests.
Proof.
  unfold DetectScopes, DetectScopesIn, inferHistoryScopes.
  rewrite runProbes_scopeTests.
  repeat constructor; cbn [scope test];
    rewrite !detected_inferOne_other by lookup_ne;
    repeat first [ apply detected_setScope_eq
                 | rewrite detected_setScope_ne by lookup_ne ].
Qed.

(** After a round each history scope whose read scope is set is set. *)
Lemma DetectScopes_history_set ctx sd :
  Forall (fun p => HasScope (DetectScopes ctx sd) (fst p) = true ->
                   detected (DetectScopes ctx sd) !! snd p = Some true)
         historyPairs.
Proof.
  destruct (DetectScopes_probed ctx sd) as (Hc & Hg & Hi & Hm & _).
  repeat constructor; cbn [fst snd]; intros Ht;
    first [rewrite Hc in Ht | rewrite Hg in Ht | rewrite Hi in Ht | rewrite Hm in Ht];
    unfold DetectScopes, DetectScopesIn, inferHistoryScopes;
    rewrite runProbes_scopeTests;
    rewrite ?detected_inferOne_other by lookup_ne;
    apply detected_inferOne_set;
    rewrite ?HasScope_inferOne_other by lookup_ne;
    repeat first [ rewrite HasScope_setScope_eq
                 | rewrite HasScope_setScope_ne by lookup_ne ];
    exact Ht.
Qed.

(** Probes that find what the map holds already change nothing. *)
Lemma runProbes_same (l : list scopeTest) ctx sd y :
  client y = client sd -> Forall clientOnly l ->
  Forall (fun st => detected y !! scope st = Some (test st sd ctx)) l ->
  runProbes l ctx y = y.
Proof.
  intros Hcl. unfold runProbes.
  induction l as [|st l IH]; intros Hco Hl; [done|].
  apply Forall_cons in Hco as [Hst Hco]. apply Forall_cons in Hl as [Hy Hl].
  cbn [fold_left]. unfold probeTask at 2.
  rewrite (Hst y sd ctx Hcl), (setScope_same y _ _ Hy). by apply IH.
Qed.

Lemma inferHistoryScopes_same y :
  Forall (fun p => HasScope y (fst p) = true -> detected y !! snd p = Some true)
         historyPairs ->
  inferHistoryScopes y = y.
Proof.
  unfold historyPairs. intros H.
  apply Forall_cons in H as [H1 H]. apply Forall_cons in H as [H2 H].
  apply Forall_cons in H as [H3 H]. apply Forall_cons in H as [H4 _].
  cbn [fst snd] in *. unfold inferHistoryScopes.
  rewrite (inferOne_same _ _ y H1), (inferOne_same _ _ y H2),
    (inferOne_same _ _ y H3). apply (inferOne_same _ _ y H4).
Qed.

(** X3.  A detection round is idempotent: run again under the same
    context on the detector it has just left, with the client answering as
    before, it changes nothing. *)
Theorem DetectScopes_idempotent (ctx : Context) (sd : ScopeDetector) :
  DetectScopes ctx (DetectScopes ctx sd) = DetectScopes ctx sd.
Proof.
  unfold DetectScopes at 1. unfold DetectScopesIn.
  rewrite (runProbes_same scopeTests ctx sd (DetectScopes ctx sd)).
  - apply inferHistoryScopes_same, DetectScopes_history_set.
  - apply client_DetectScopes.
  - apply scopeTests_clientOnly.
  - apply DetectScopes_detected_probed.
Qed.

(** X4.  After a detection round, whatever the map held before, the
    channel types reported are those whose listing call was not refused:
    each of public_channel, private_channel, im, mpim, in that order, is
    kept exactly when the client's [GetConversationsContext] for one item
    of that very type did not return a permission denial. *)
Theorem AvailableChannelTypes_after_round (ctx : Context) (sd : ScopeDetector) :
  AvailableChannelTypes (DetectScopes ctx sd) =
  List.filter
    (fun ty =>
       negb (isMissingScopeError
               (snd (GetConversationsContext (client sd) ctx
                       {| Cursor := ""; ExcludeArchived := false; Limit := 1;
                          Types := [ty] |}))))
    ["public_channel"; "private_channel"; "im"; "mpim"].
Proof.
  destruct (DetectScopes_records_calls ctx sd) as (Hc & Hg & Hi & Hm & _).
  unfold AvailableChannelTypes. rewrite Hc, Hg, Hi, Hm.
  unfold appendIf. cbn [List.filter].
  by repeat match goal with
            | |- context [isMissingScopeError ?e] =>
                destruct (isMissingScopeError e)
            end.
Qed.

(** X5.  [HasAnyReadScope] says whether [AvailableChannelTypes] is
    non-empty, and [AvailableChannelTypes] never lists a type twice. *)
Theorem HasAnyReadScope_iff_some_channel_type (sd : ScopeDetector) :
  HasAnyReadScope sd = negb (length (AvailableChannelTypes sd) =? 0)%nat /\
  NoDup (AvailableChannelTypes sd).
Proof.
  unfold HasAnyReadScope, AvailableChannelTypes, appendIf.
  destruct (HasScope sd ScopeChannelsRead), (HasScope sd ScopeGroupsRead),
    (HasScope sd ScopeIMRead), (HasScope sd ScopeMPIMRead);
    (split; [reflexivity|]);
    cbn [app];
    repeat (apply NoDup_cons; split;
            [rewrite ?elem_of_cons, elem_of_nil; intuition discriminate|]);
    apply NoDup_nil_2.
Qed.

Lemma detectRounds_history_kept rounds sd :
  Forall (fun p => HasScope sd (snd p) = true ->
                   HasScope (detectRounds rounds sd) (snd p) = true)
         historyPairs.
Proof.
  unfold detectRounds. revert sd.
  induction rounds as [|ctx rounds IH]; intros sd.
  - repeat constructor; done.
  - specialize (IH (DetectScopes ctx sd)).
    destruct (DetectScopes_history ctx sd) as (Hch & Hgh & Hih & Hmh).
    unfold historyPairs in *.
    apply Forall_cons in IH as [I1 IH]. apply Forall_cons in IH as [I2 IH].
    apply Forall_cons in IH as [I3 IH]. apply Forall_cons in IH as [I4 _].
    cbn [fst snd fold_left] in *.
    repeat constructor; cbn [fst snd]; intros Hs;
      [apply I1; rewrite Hch | apply I2; rewrite Hgh
       | apply I3; rewrite Hih | apply I4; rewrite Hmh];
      rewrite Hs; apply orb_true_r.
Qed.

(** X6.  Detection never withdraws a history scope: one that is set stays
    set through every later round on the same detector, also when its read
    scope is found missing then. *)
Theorem history_scope_never_withdrawn
    (rounds : list Context) (sd : ScopeDetector) (rd hist : Scope) :
  (rd, hist) ∈ historyPairs ->
  HasScope sd hist = true ->
  HasScope (detectRounds rounds sd) hist = true.
Proof.
  intros Hin Hs.
  pose proof (detectRounds_history_kept rounds sd) as H.
  rewrite Forall_forall in H. by apply (H (rd, hist)).
Qed.

Lemma history_scope_never_withdrawn_witness :
  HasScope
    (detectRounds [context_Background; cancelledContext]
       {| client := failingClient (errors_New "missing_scope");
          detected := detected (detectedBy okClient context_Background) |})
    ScopeIMHistory = true.
Proof.
  apply (history_scope_never_withdrawn _ _ ScopeIMRead ScopeIMHistory).
  - unfold historyPairs. rewrite !elem_of_cons. auto.
  - reflexivity.
Defined.

Lemma fold_logEntry (l : list (Scope * bool)) (a u : list string) :
  fold_left logEntry l (a, u) =
  ((a ++ map fst (List.filter (fun e => snd e) l))%list,
   (u ++ map fst (List.filter (fun e => negb (snd e)) l))%list).
Proof.
  revert a u. induction l as [|[s b] l IH]; intros a u; cbn [fold_left].
  - cbn. by rewrite !app_nil_r.
  - unfold logEntry at 2. destruct b; rewrite IH; cbn;
      by rewrite <- ?app_assoc.
Qed.

Lemma elem_of_fst_filter_entries (f : Scope * bool -> bool)
    (l : list (Scope * bool)) (s : Scope) :
  s ∈ map fst (List.filter f l) <-> exists b, (s, b) ∈ l /\ f (s, b) = true.
Proof.
  rewrite list_elem_of_In, in_map_iff. split.
  - intros [[s' b] [Hfst Hin]]. cbn in Hfst. subst s'.
    apply filter_In in Hin as [Hin Hf]. exists b.
    by rewrite list_elem_of_In.
  - intros [b [Hin Hf]]. exists (s, b). split; [done|].
    apply filter_In. by rewrite <- list_elem_of_In.
Qed.

Lemma elem_of_logged (m : gmap string bool) (f : Scope * bool -> bool) (s : Scope) :
  s ∈ map fst (List.filter f (map_to_list m)) <->
  exists b, m !! s = Some b /\ f (s, b) = true.
Proof.
  rewrite elem_of_fst_filter_entries.
  split; intros [b [Hin Hf]]; exists b; split; try done;
    by apply elem_of_map_to_list.
Qed.

Lemma NoDup_logged (m : gmap string bool) :
  NoDup (map fst (List.filter (fun e => snd e) (map_to_list m)) ++
         map fst (List.filter (fun e => negb (snd e)) (map_to_list m))).
Proof.
  apply NoDup_app. split; [|split].
  - apply (sublist_NoDup _ (map fst (map_to_list m)));
      [apply NoDup_fst_map_to_list|].
    apply fmap_sublist. induction (map_to_list m) as [|e l IH]; cbn; [done|].
    destruct (snd e); by constructor.
  - intros s. rewrite !elem_of_logged.
    intros (b & Hb & Ht) (b' & Hb' & Hf).
    destruct b, b'; cbn in *; congruence.
  - apply (sublist_NoDup _ (map fst (map_to_list m)));
      [apply NoDup_fst_map_to_list|].
    apply fmap_sublist. induction (map_to_list m) as [|e l IH]; cbn; [done|].
    destruct (snd e); by constructor.
Qed.

Lemma logDetectedScopes_members (sd : ScopeDetector) (s : Scope) :
  ((s ∈ fst (logDetectedScopes sd)) <-> detected sd !! s = Some true) /\
  ((s ∈ snd (logDetectedScopes sd)) <-> detected sd !! s = Some false).
Proof.
  unfold logDetectedScopes. rewrite fold_logEntry. cbn [fst snd app].
  rewrite !elem_of_logged. cbn [snd]. split; split.
  - by intros ([|] & Hb & Ht).
  - intros Hb. by exists true.
  - by intros ([|] & Hb & Ht).
  - intros Hb. by exists false.
Qed.

(** X7.  The log of a detection round reports every scope the map holds
    once, under [available] when it is recorded true and under
    [unavailable] when it is recorded false, and reports no scope the map
    does not hold. *)
Theorem logDetectedScopes_partition (sd : ScopeDetector) :
  (forall s : Scope,
      ((s ∈ fst (logDetectedScopes sd)) <-> detected sd !! s = Some true) /\
      ((s ∈ snd (logDetectedScopes sd)) <-> detected sd !! s = Some false)) /\
  NoDup (fst (logDetectedScopes sd) ++ snd (logDetectedScopes sd)).
Proof.
  split; [apply logDetectedScopes_members|].
  unfold logDetectedScopes. rewrite fold_logEntry. cbn [fst snd app].
  apply NoDup_logged.
Qed.

Lemma detected_inferOne_hist rd hist sd :
  detected (inferOne rd hist sd) !! hist =
  if HasScope sd rd then Some true else detected sd !! hist.
Proof.
  unfold inferOne. destruct (HasScope sd rd); [|done].
  apply detected_setScope_eq.
Qed.

(** What a round leaves under each history scope: [true] when the read
    scope was found, and otherwise what was there, if anything. *)
Lemma DetectScopes_detected_history ctx sd :
  detected (DetectScopes ctx sd) !! ScopeChannelsHistory =
    (if testChannelsRead sd ctx then Some true
     else detected sd !! ScopeChannelsHistory) /\
  detected (DetectScopes ctx sd) !! ScopeGroupsHistory =
    (if testGroupsRead sd ctx then Some true
     else detected sd !! ScopeGroupsHistory) /\
  detected (DetectScopes ctx sd) !! ScopeIMHistory =
    (if testIMRead sd ctx then Some true
     else detected sd !! ScopeIMHistory) /\
  detected (DetectScopes ctx sd) !! ScopeMPIMHistory =
    (if testMPIMRead sd ctx then Some true
     else detected sd !! ScopeMPIMHistory).
Proof.
  unfold DetectScopes, DetectScopesIn, inferHistoryScopes.
  rewrite runProbes_scopeTests.
  repeat split;
    rewrite ?detected_inferOne_other by lookup_ne;
    rewrite detected_inferOne_hist;
    rewrite ?HasScope_inferOne_other by lookup_ne;
    repeat first [ rewrite HasScope_setScope_eq
                 | rewrite HasScope_setScope_ne by lookup_ne ];
    rewrite ?detected_inferOne_other by lookup_ne;
    by rewrite ?detected_setScope_ne by lookup_ne.
Qed.

Lemma DetectScopes_detected_other ctx sd s :
  s ∉ writtenScopes -> detected (DetectScopes ctx sd) !! s = detected sd !! s.
Proof.
  intros Hs. apply not_written_inv in Hs.
  destruct Hs as (?&?&?&?&?&?&?&?&?&?).
  unfold DetectScopes, DetectScopesIn, inferHistoryScopes.
  rewrite runProbes_scopeTests.
  rewrite !detected_inferOne_other by done.
  by rewrite !detected_setScope_ne by done.
Qed.

(** X8.  The log of the first detection round names each of
    channels:read, groups:read, im:read, mpim:read, users:read and
    search:read, as available or as unavailable.  A history scope is
    named as available exactly when its read scope is, and is never named
    as unavailable; chat:write, im:write and mpim:write are not named at
    all. *)
Theorem first_round_log (c : SlackAPI) (ctx : Context) :
  Forall (fun s => (s ∈ fst (logDetectedScopes (detectedBy c ctx))) \/
                   (s ∈ snd (logDetectedScopes (detectedBy c ctx))))
         [ScopeChannelsRead; ScopeGroupsRead; ScopeIMRead; ScopeMPIMRead;
          ScopeUsersRead; ScopeSearchRead] /\
  Forall (fun p =>
            ((snd p ∈ fst (logDetectedScopes (detectedBy c ctx))) <->
             (fst p ∈ fst (logDetectedScopes (detectedBy c ctx)))) /\
            (snd p ∉ snd (logDetectedScopes (detectedBy c ctx))))
         [(ScopeChannelsRead, ScopeChannelsHistory);
          (ScopeGroupsRead, ScopeGroupsHistory);
          (ScopeIMRead, ScopeIMHistory);
          (ScopeMPIMRead, ScopeMPIMHistory)] /\
  Forall (fun s => (s ∉ fst (logDetectedScopes (detectedBy c ctx))) /\
                   (s ∉ snd (logDetectedScopes (detectedBy c ctx))))
         [ScopeChatWrite; ScopeIMWrite; ScopeMPIMWrite].
Proof.
  pose proof (logDetectedScopes_members (detectedBy c ctx)) as Hlog.
  unfold detectedBy in *.
  pose proof (DetectScopes_detected_probed ctx (NewScopeDetector c)) as Hp.
  destruct (DetectScopes_detected_history ctx (NewScopeDetector c))
    as (Hch & Hgh & Hih & Hmh).
  destruct write_scopes_not_written as (Hcw & Hiw & Hmw).
  unfold scopeTests in Hp.
  apply Forall_cons in Hp as [Pc Hp]. apply Forall_cons in Hp as [Pg Hp].
  apply Forall_cons in Hp as [Pi Hp]. apply Forall_cons in Hp as [Pm Hp].
  apply Forall_cons in Hp as [Pu Hp]. apply Forall_cons in Hp as [Ps _].
  cbn [scope test] in *.
  split; [|split].
  - repeat first [apply Forall_cons_2 | apply Forall_nil_2]; cbn beta;
      rewrite ?(proj1 (Hlog _)), ?(proj2 (Hlog _)),
        ?Pc, ?Pg, ?Pi, ?Pm, ?Pu, ?Ps;
      repeat match goal with
             | |- context [Some (?t ?sd ?ctx)] => destruct (t sd ctx)
             end; auto.
  - repeat constructor; cbn [fst snd];
      rewrite ?(proj1 (Hlog _)), ?(proj2 (Hlog _)),
        ?Hch, ?Hgh, ?Hih, ?Hmh, ?Pc, ?Pg, ?Pi, ?Pm;
      cbn [NewScopeDetector detected]; rewrite ?lookup_empty;
      repeat match goal with
             | |- context [testChannelsRead ?sd ?ctx] => destruct (testChannelsRead sd ctx)
             | |- context [testGroupsRead ?sd ?ctx] => destruct (testGroupsRead sd ctx)
             | |- context [testIMRead ?sd ?ctx] => destruct (testIMRead sd ctx)
             | |- context [testMPIMRead ?sd ?ctx] => destruct (testMPIMRead sd ctx)
             end; (done || (split; congruence)).
  - repeat constructor;
      rewrite ?(proj1 (Hlog _)), ?(proj2 (Hlog _)),
        !DetectScopes_detected_other by done;
      cbn [NewScopeDetector detected]; by rewrite lookup_empty.
Qed.

End DetectorExtras.


(** ** Properties of the attachment handlers *)

Section HandlerExtras.
Import handler attachments vocabulary examples fixtures.

(** The limit the handler passes on. *)
Lemma clamp_limit_range (n : Z) :
  (1 <= (if (n <? 1)%Z || (n >? 100)%Z then 100 else n) <= 100)%Z.
Proof.
  destruct (n <? 1)%Z eqn:H1; [cbn; lia|].
  destruct (n >? 100)%Z eqn:H2; cbn; [lia|]. lia.
Qed.

(** X9.  Whenever [MessagesWithAttachmentsHandler] gets as far as calling
    Slack, the limit it passes is between 1 and 100: the [limit] argument
    itself when that lies in the range, and 100 when it is absent, below 1
    or above 100.  The cursor is passed as given and [Inclusive] is
    false. *)
Theorem history_limit_in_range
    (authenticated : bool * error) (maps : ChannelsCache)
    (request : CallToolRequest) (params : GetConversationHistoryParameters) :
  MessagesWithAttachmentsHandler_params authenticated maps request = inr params ->
  (1 <= HistoryLimit params <= 100)%Z /\
  HistoryLimit params =
    (match arg_limit request with
     | Some n => if bool_decide (1 <= n <= 100)%Z then n else 100%Z
     | None => 100%Z
     end) /\
  HistoryCursor params = default "" (arg_cursor request) /\
  Inclusive params = false.
Proof.
  unfold MessagesWithAttachmentsHandler_params, GetInt, GetString.
  destruct (negb (fst authenticated)); [discriminate|].
  destruct (String.eqb _ ""); [discriminate|].
  destruct (resolveChannelID maps _) as [e|cid]; [discriminate|].
  intros [= <-]. cbn [HistoryLimit HistoryCursor Inclusive].
  split; [apply clamp_limit_range|]. split; [|done].
  destruct (arg_limit request) as [n|]; cbn; [|done].
  case_bool_decide as Hn.
  - destruct (n <? 1)%Z eqn:H1; [lia|].
    destruct (n >? 100)%Z eqn:H2; [lia|reflexivity].
  - destruct (n <? 1)%Z eqn:H1; [reflexivity|].
    destruct (n >? 100)%Z eqn:H2; [reflexivity|lia].
Qed.

Lemma history_limit_in_range_witness :
  exists params,
    MessagesWithAttachmentsHandler_params (true, nil_error) directory
      (callWithLimit "#general" 1000) = inr params /\
    HistoryLimit params = 100%Z.
Proof.
  eexists. split; [reflexivity|].
  apply (history_limit_in_range (true, nil_error) directory
           (callWithLimit "#general" 1000)).
  reflexivity.
Defined.

(** X10.  [MessagesWithAttachmentsHandler] gets as far as calling Slack
    exactly when the call is authenticated, [channel_id] is given and not
    empty, and a [channel_id] written as a name has an entry in the
    inverse map of the directory. *)
Theorem reaches_slack_iff
    (authenticated : bool * error) (maps : ChannelsCache)
    (request : CallToolRequest) :
  (exists params,
      MessagesWithAttachmentsHandler_params authenticated maps request
        = inr params) <->
  fst authenticated = true /\
  exists ref,
    arg_channel_id request = Some ref /\ ref <> "" /\
    (prefixed ref = true -> is_Some (ChannelsInv maps !! ref)).
Proof.
  unfold MessagesWithAttachmentsHandler_params, GetString.
  destruct authenticated as [[|] err]; cbn [fst snd negb];
    [|split; [intros [p Hp]; discriminate | intros [Hf _]; discriminate]].
  destruct (arg_channel_id request) as [ref|]; cbn [from_option id].
  - destruct (String.eqb_spec ref "") as [->|Hne].
    + split; [intros [p Hp]; discriminate|].
      intros [_ (ref & [= <-] & Hne & _)]. done.
    + destruct (prefixed ref) eqn:Hp.
      * destruct (ChannelsInv maps !! ref) as [chn|] eqn:Hinv.
        -- rewrite (resolveChannelID_known maps ref chn Hp Hinv).
           split; [|intros _; eexists; reflexivity].
           intros _. split; [done|]. exists ref.
           split; [done|]. split; [done|]. intros _. by exists chn.
        -- rewrite (resolveChannelID_unknown maps ref Hp Hinv).
           split; [intros [p Hp']; discriminate|].
           intros [_ (ref' & [= <-] & _ & Hsome)].
           destruct (Hsome Hp) as [x Hx]. congruence.
      * rewrite (resolveChannelID_bare maps ref Hp).
        split; [|intros _; eexists; reflexivity].
        intros _. split; [done|]. exists ref.
        split; [done|]. split; [done|]. intros Hp'. congruence.
  - split; [intros [p Hp]; discriminate|].
    intros [_ (ref & Hr & _)]. discriminate.
Qed.

(** X11.  A name that the inverse map sends to an identifier is replaced
    by the [ID] the channel map stores under that identifier; when the
    channel map holds nothing under it, the handler goes on and calls
    Slack with the empty channel identifier. *)
Theorem resolved_name_uses_stored_id
    (err : error) (maps : ChannelsCache) (request : CallToolRequest)
    (ref chn : string) :
  arg_channel_id request = Some ref ->
  prefixed ref = true ->
  ChannelsInv maps !! ref = Some chn ->
  exists params,
    MessagesWithAttachmentsHandler_params (true, err) maps request = inr params /\
    ChannelID params =
      match Channels maps !! chn with
      | Some channel => ID channel
      | None => ""
      end.
Proof.
  intros Harg Hp Hinv. unfold MessagesWithAttachmentsHandler_params, GetString.
  cbn [fst snd negb]. rewrite Harg. cbn [from_option id].
  destruct (String.eqb_spec ref "") as [->|_]; [discriminate|].
  rewrite (resolveChannelID_known maps ref chn Hp Hinv).
  eexists. split; [reflexivity|]. cbn [ChannelID].
  by destruct (Channels maps !! chn).
Qed.

Lemma resolved_name_uses_stored_id_witness :
  exists params,
    MessagesWithAttachmentsHandler_params (true, nil_error) danglingDirectory
      (callFor "#gone") = inr params /\
    ChannelID params = "".
Proof.
  apply (resolved_name_uses_stored_id nil_error danglingDirectory
           (callFor "#gone") "#gone" "C0404040404"); reflexivity.
Defined.

(** The two loops of the handler build, for each message in turn, one
    attachment per file in turn. *)
Lemma appendFiles_app ap cid (acc : list Attachment) (msg : Message) :
  appendFiles ap cid acc msg =
  (acc ++ map (attachmentOf ap cid msg) (msg_Files msg))%list.
Proof.
  unfold appendFiles. destruct (msg_Files msg) as [|file files] eqn:Hf.
  - cbn. by rewrite app_nil_r.
  - cbn [length Nat.eqb]. rewrite <- Hf. clear Hf. revert acc.
    induction (msg_Files msg) as [|f fs IH]; intros acc; cbn [fold_left map].
    + by rewrite app_nil_r.
    + rewrite IH. by rewrite <- app_assoc.
Qed.

Lemma fold_appendFiles ap cid (msgs : list Message) (acc : list Attachment) :
  fold_left (appendFiles ap cid) msgs acc =
  (acc ++ flat_map (fun msg => map (attachmentOf ap cid msg) (msg_Files msg)) msgs)%list.
Proof.
  revert acc. induction msgs as [|msg msgs IH]; intros acc; cbn [fold_left flat_map].
  - by rewrite app_nil_r.
  - rewrite IH, appendFiles_app. by rewrite <- app_assoc.
Qed.

(** Setting the cursor touches no other field. *)
Lemma map_setLastCursor {B} (f : Attachment -> B) history atts :
  (forall c a, f (withCursor c a) = f a) ->
  map f (setLastCursor history atts) = map f atts.
Proof.
  intros Hf. unfold setLastCursor.
  destruct ((0 <? length atts)%nat && HasMore history); [|done].
  generalize (length atts - 1)%nat. intros i. revert i.
  induction atts as [|a atts IH]; intros [|i]; cbn; [done|done| |].
  - by rewrite Hf.
  - f_equal. apply IH.
Qed.

Lemma map_flat_map_attachments {B} (f : Attachment -> B) (g : Message -> File -> B)
    ap cid (msgs : list Message) :
  (forall msg file, f (attachmentOf ap cid msg file) = g msg file) ->
  map f (flat_map (fun msg => map (attachmentOf ap cid msg) (msg_Files msg)) msgs) =
  flat_map (fun msg => map (g msg) (msg_Files msg)) msgs.
Proof.
  intros Hfg. induction msgs as [|msg msgs IH]; cbn [flat_map]; [done|].
  rewrite map_app, IH. f_equal. rewrite map_map.
  apply map_ext. intros file. apply Hfg.
Qed.

Lemma Forall_setLastCursor (P : Attachment -> Prop) history atts :
  (forall c a, P a -> P (withCursor c a)) ->
  Forall P atts -> Forall P (setLastCursor history atts).
Proof.
  intros HP Hatts. unfold setLastCursor.
  destruct ((0 <? length atts)%nat && HasMore history); [|done].
  apply Forall_alter; [done|]. intros a _. apply HP.
Qed.

Lemma Forall_attachments (P : Attachment -> Prop) ap cid (msgs : list Message) :
  (forall msg file, P (attachmentOf ap cid msg file)) ->
  Forall P (flat_map (fun msg => map (attachmentOf ap cid msg) (msg_Files msg)) msgs).
Proof.
  intros HP. apply Forall_forall. intros a Ha.
  apply list_elem_of_In, in_flat_map in Ha. destruct Ha as (msg & _ & Ha).
  apply in_map_iff in Ha as (file & <- & _). apply HP.
Qed.

(** What the handler returns once Slack has answered. *)
Lemma MessagesWithAttachmentsHandler_ok ap ctx request params history :
  MessagesWithAttachmentsHandler_params
    (IsAuthenticated ap ctx) (ProvideChannelsMaps ap) request = inr params ->
  GetConversationHistoryContext ap ctx params = (history, nil_error) ->
  MessagesWithAttachmentsHandler ap ctx request =
  inr (setLastCursor history
         (flat_map (fun msg => map (attachmentOf ap (ChannelID params) msg)
                                   (msg_Files msg))
                   (Messages history))).
Proof.
  intros Hp Hh. unfold MessagesWithAttachmentsHandler.
  rewrite Hp, Hh. unfold nil_error. by rewrite fold_appendFiles.
Qed.

(** X12.  When Slack answers, the handler returns one attachment for each
    file of each message, in the order of the messages and of the files in
    them, and nothing for a message without files: the identifiers are the
    files' identifiers in that order, each attachment carries the
    timestamp of its message as [MessageID], and all carry the channel
    identifier that was sent to Slack. *)
Theorem attachments_follow_files
    (ap : ApiProvider) (ctx : Context) (request : CallToolRequest)
    (params : GetConversationHistoryParameters) (history : History) :
  MessagesWithAttachmentsHandler_params
    (IsAuthenticated ap ctx) (ProvideChannelsMaps ap) request = inr params ->
  GetConversationHistoryContext ap ctx params = (history, nil_error) ->
  exists atts,
    MessagesWithAttachmentsHandler ap ctx request = inr atts /\
    map att_ID atts =
      flat_map (fun msg => map file_ID (msg_Files msg)) (Messages history) /\
    map att_MessageID atts =
      flat_map (fun msg => map (fun _ => msg_Timestamp msg) (msg_Files msg))
               (Messages history) /\
    Forall (fun a => att_ChannelID a = ChannelID params) atts.
Proof.
  intros Hp Hh. eexists. split; [by apply MessagesWithAttachmentsHandler_ok|].
  split; [|split].
  - rewrite map_setLastCursor by done. by apply map_flat_map_attachments.
  - rewrite map_setLastCursor by done. by apply map_flat_map_attachments.
  - apply Forall_setLastCursor; [done|]. by apply Forall_attachments.
Qed.

Lemma attachments_follow_files_witness :
  exists atts,
    MessagesWithAttachmentsHandler api context_Background (callFor "#general")
      = inr atts /\
    map att_ID atts = ["F1"; "F2"; "F2"].
Proof.
  destruct (attachments_follow_files api context_Background (callFor "#general")
              {| ChannelID := "C0123456789"; HistoryLimit := 100;
                 HistoryCursor := ""; Inclusive := false |} history)
    as (atts & Hok & Hids & _); [reflexivity | reflexivity |].
  exists atts. split; [exact Hok | exact Hids].
Defined.

Lemma length_setLastCursor history atts :
  length (setLastCursor history atts) = length atts.
Proof.
  unfold setLastCursor.
  destruct ((0 <? length atts)%nat && HasMore history); [|done].
  apply length_alter.
Qed.

Lemma setLastCursor_cursors history atts (i : nat) (a : Attachment) :
  Forall (fun a => att_Cursor a = "") atts ->
  setLastCursor history atts !! i = Some a ->
  att_Cursor a =
    if HasMore history && (S i =? length atts)%nat
    then NextCursor history else "".
Proof.
  intros Hall. unfold setLastCursor.
  destruct (HasMore history); cbn [andb]; rewrite ?andb_false_r, ?andb_true_r.
  - destruct (0 <? length atts)%nat eqn:Hlen.
    + apply Nat.ltb_lt in Hlen. rewrite list_lookup_alter.
      case_decide as Hi.
      * subst i. intros Ha. apply fmap_Some in Ha as (a0 & _ & ->).
        cbn [withCursor att_Cursor].
        replace (S (length atts - 1) =? length atts)%nat with true; [done|].
        symmetry. apply Nat.eqb_eq. lia.
      * intros Ha. pose proof (lookup_lt_Some _ _ _ Ha) as Hlt.
        replace (S i =? length atts)%nat with false
          by (symmetry; apply Nat.eqb_neq; lia).
        rewrite Forall_forall in Hall. apply Hall.
        by apply list_elem_of_lookup_2 in Ha.
    + apply Nat.ltb_ge in Hlen. intros Ha.
      apply lookup_lt_Some in Ha. lia.
  - intros Ha. rewrite Forall_forall in Hall. apply Hall.
    by apply list_elem_of_lookup_2 in Ha.
Qed.

(** X13.  Of the attachments returned, only the last one can carry a
    cursor: it carries Slack's next cursor when Slack says there are more
    results, and every other attachment, and the last one when there are
    no more results, has an empty cursor. *)
Theorem cursor_on_last_attachment_only
    (ap : ApiProvider) (ctx : Context) (request : CallToolRequest)
    (params : GetConversationHistoryParameters) (history : History) :
  MessagesWithAttachmentsHandler_params
    (IsAuthenticated ap ctx) (ProvideChannelsMaps ap) request = inr params ->
  GetConversationHistoryContext ap ctx params = (history, nil_error) ->
  exists atts,
    MessagesWithAttachmentsHandler ap ctx request = inr atts /\
    forall (i : nat) (a : Attachment),
      atts !! i = Some a ->
      att_Cursor a =
        if HasMore history && (S i =? length atts)%nat
        then NextCursor history else "".
Proof.
  intros Hp Hh. eexists. split; [by apply MessagesWithAttachmentsHandler_ok|].
  intros i a Ha. rewrite length_setLastCursor.
  apply (setLastCursor_cursors history _ i a); [|exact Ha].
  by apply Forall_attachments.
Qed.

Lemma cursor_on_last_attachment_only_witness :
  exists atts,
    MessagesWithAttachmentsHandler api context_Background (callFor "#general")
      = inr atts /\
    map att_Cursor atts = [""; ""; "bmV4dA=="].
Proof.
  destruct (cursor_on_last_attachment_only api context_Background
              (callFor "#general")
              {| ChannelID := "C0123456789"; HistoryLimit := 100;
                 HistoryCursor := ""; Inclusive := false |} history)
    as (atts & Hok & _); [reflexivity | reflexivity |].
  exists atts. split; [exact Hok|].
  injection Hok as <-. reflexivity.
Defined.

(** X14.  Every attachment returned names its user by the name the users
    directory holds for the user's identifier, and by the identifier
    itself when the directory does not hold it; and it shows the converted
    timestamp of its message, or the raw timestamp when the conversion
    fails. *)
Theorem attachment_user_and_time_fallbacks
    (ap : ApiProvider) (ctx : Context) (request : CallToolRequest)
    (params : GetConversationHistoryParameters) (history : History) :
  MessagesWithAttachmentsHandler_params
    (IsAuthenticated ap ctx) (ProvideChannelsMaps ap) request = inr params ->
  GetConversationHistoryContext ap ctx params = (history, nil_error) ->
  exists atts,
    MessagesWithAttachmentsHandler ap ctx request = inr atts /\
    Forall (fun a =>
              att_UserName a =
                match Users (ProvideUsersMap ap) !! att_UserID a with
                | Some user => user_Name user
                | None => att_UserID a
                end /\
              att_Timestamp a =
                match snd (TimestampToIsoRFC3339 ap (att_MessageID a)) with
                | Some _ => att_MessageID a
                | None => fst (TimestampToIsoRFC3339 ap (att_MessageID a))
                end)
           atts.
Proof.
  intros Hp Hh. eexists. split; [by apply MessagesWithAttachmentsHandler_ok|].
  apply Forall_setLastCursor; [done|]. apply Forall_attachments.
  intros msg file. cbn [attachmentOf att_UserName att_UserID att_Timestamp att_MessageID].
  unfold userNameOf, timestampOf. split; [done|].
  by destruct (TimestampToIsoRFC3339 ap (msg_Timestamp msg)) as [t [e|]].
Qed.

Lemma attachment_user_and_time_fallbacks_witness :
  exists atts,
    MessagesWithAttachmentsHandler api context_Background (callFor "#general")
      = inr atts /\
    map att_UserName atts = ["alice"; "U9"; "U9"] /\
    map att_Timestamp atts =
      ["2023-11-14T22:13:20Z"; "2023-11-14T22:13:20Z"; "1700000000.000300"].
Proof.
  destruct (attachment_user_and_time_fallbacks api context_Background
              (callFor "#general")
              {| ChannelID := "C0123456789"; HistoryLimit := 100;
                 HistoryCursor := ""; Inclusive := false |} history)
    as (atts & Hok & _); [reflexivity | reflexivity |].
  exists atts. split; [exact Hok|].
  injection Hok as <-. split; reflexivity.
Defined.

Lemma lookup_addThumb (k u : string) (t : gmap string string) (key : string) :
  addThumb k u t !! key =
  if decide (k = key /\ u <> "") then Some u else t !! key.
Proof.
  unfold addThumb. destruct (String.eqb_spec u "") as [->|Hu]; cbn [negb].
  - case_decide as H; [|done]. by destruct H.
  - case_decide as H.
    + destruct H as [-> _]. apply lookup_insert_eq.
    + apply lookup_insert_ne. intros ->. by apply H.
Qed.

Lemma thumbnailsOf_lookup (file : File) (key url : string) :
  thumbnailsOf file !! key = Some url <->
  url <> "" /\
  (key, url) ∈ [ ("thumb64", file_Thumb64 file); ("thumb80", file_Thumb80 file);
                 ("thumb160", file_Thumb160 file); ("thumb360", file_Thumb360 file);
                 ("thumb480", file_Thumb480 file); ("thumb720", file_Thumb720 file);
                 ("thumb1024", file_Thumb1024 file) ].
Proof.
  unfold thumbnailsOf. rewrite !lookup_addThumb, lookup_empty. split.
  - repeat case_decide; try discriminate; intros [= <-];
      match goal with
      | H : _ = key /\ _ <> "" |- _ => destruct H as [<- Hu]
      end;
      (split; [exact Hu|]); rewrite !elem_of_cons;
      repeat first [left; reflexivity | right].
  - intros [Hu Hin]. rewrite !elem_of_cons, elem_of_nil in Hin.
    repeat (destruct Hin as [Hin|Hin];
            [injection Hin as -> ->; repeat case_decide;
             first [ reflexivity
                   | exfalso;
                     match goal with
                     | H : _ = _ /\ _ |- _ => destruct H as [Hk _]; discriminate Hk
                     end
                   | exfalso;
                     match goal with
                     | H : ~ (_ = _ /\ _) |- _ => apply H; split; done
                     end ]|]).
    destruct Hin.
Qed.

(** X15.  The thumbnails of a file hold exactly its non-empty thumbnail
    URLs, each under the key of its size; an empty URL is left out. *)
Theorem thumbnails_hold_nonempty_urls (file : File) (key url : string) :
  thumbnailsOf file !! key = Some url <->
  url <> "" /\
  (key, url) ∈ [ ("thumb64", file_Thumb64 file); ("thumb80", file_Thumb80 file);
                 ("thumb160", file_Thumb160 file); ("thumb360", file_Thumb360 file);
                 ("thumb480", file_Thumb480 file); ("thumb720", file_Thumb720 file);
                 ("thumb1024", file_Thumb1024 file) ].
Proof. apply thumbnailsOf_lookup. Qed.

Lemma thumbnailsOf_size (file : File) :
  size (thumbnailsOf file) = 0%nat <->
  Forall (fun url => url = "")
    [ file_Thumb64 file; file_Thumb80 file; file_Thumb160 file;
      file_Thumb360 file; file_Thumb480 file; file_Thumb720 file;
      file_Thumb1024 file ].
Proof.
  rewrite map_size_empty_iff. split.
  - intros Hempty. apply Forall_forall. intros url Hin.
    destruct (decide (url = "")) as [|Hne]; [done|]. exfalso.
    assert (exists key, thumbnailsOf file !! key = Some url) as [key Hkey].
    { rewrite !elem_of_cons, elem_of_nil in Hin.
      repeat (destruct Hin as [->|Hin];
              [eexists; apply thumbnailsOf_lookup; split; [exact Hne|];
               rewrite !elem_of_cons; repeat first [left; reflexivity | right]|]).
      destruct Hin. }
    rewrite Hempty, lookup_empty in Hkey. discriminate.
  - intros Hall.
    repeat match goal with
           | H : Forall _ (_ :: _) |- _ => apply Forall_cons in H as [? H]
           end.
    unfold thumbnailsOf.
    repeat match goal with
           | H : _ = "" |- _ => rewrite H; clear H
           end.
    reflexivity.
Qed.

Lemma detailsResponse_base_lookup (l : list (string * Value)) (key : string) :
  key ∉ map fst l -> (list_to_map l : gmap string Value) !! key = None.
Proof. apply not_elem_of_list_to_map_1. Qed.

(** X16.  The details of a file have a [thumbnails] entry exactly when
    some thumbnail URL of the file is not empty, and it holds the file's
    thumbnails; they have a [dimensions] entry exactly when the width or
    the height is positive, and it holds both values as they are. *)
Theorem details_optional_entries (ap : ApiProvider) (file : File) :
  detailsResponse ap file !! "thumbnails" =
    (if bool_decide
          (Forall (fun url => url = "")
             [ file_Thumb64 file; file_Thumb80 file; file_Thumb160 file;
               file_Thumb360 file; file_Thumb480 file; file_Thumb720 file;
               file_Thumb1024 file ])
     then None
     else Some (VThumbnails (thumbnailsOf file))) /\
  detailsResponse ap file !! "dimensions" =
    (if bool_decide (0 < file_OriginalW file \/ 0 < file_OriginalH file)%Z
     then Some (VDimensions {[ "width" := file_OriginalW file;
                               "height" := file_OriginalH file ]})
     else None).
Proof.
  unfold detailsResponse. cbv zeta.
  set (base := list_to_map _ : gmap string Value).
  assert (base !! "thumbnails" = None /\ base !! "dimensions" = None) as [Hbt Hbd].
  { split; apply detailsResponse_base_lookup; cbn [map fst];
      rewrite !elem_of_cons, elem_of_nil; intuition discriminate. }
  pose proof (thumbnailsOf_size file) as Hsize.
  split.
  - assert (forall m : gmap string Value,
              (if (file_OriginalW file >? 0)%Z || (file_OriginalH file >? 0)%Z
               then <["dimensions" := VDimensions
                        {[ "width" := file_OriginalW file;
                           "height" := file_OriginalH file ]}]> m
               else m) !! "thumbnails" = m !! "thumbnails") as ->.
    { intros m. destruct (_ || _); [|done]. by rewrite lookup_insert_ne. }
    destruct (0 <? size (thumbnailsOf file))%nat eqn:Hlt.
    + apply Nat.ltb_lt in Hlt. rewrite lookup_insert_eq.
      rewrite bool_decide_eq_false_2; [done|]. rewrite <- Hsize. lia.
    + apply Nat.ltb_ge in Hlt. rewrite Hbt.
      rewrite bool_decide_eq_true_2; [done|]. apply Hsize. lia.
  - destruct ((file_OriginalW file >? 0)%Z || (file_OriginalH file >? 0)%Z) eqn:Hd.
    + rewrite lookup_insert_eq. rewrite bool_decide_eq_true_2; [done|].
      apply orb_true_iff in Hd. lia.
    + rewrite bool_decide_eq_false_2 by (apply orb_false_iff in Hd; lia).
      destruct (0 <? size (thumbnailsOf file))%nat; [|done].
      by rewrite lookup_insert_ne.
Qed.

Lemma textMimeTypes_lookup (mimeType : string) :
  default false (textMimeTypes !! mimeType) = true <->
  mimeType ∈ [ "text/plain"; "text/html"; "text/css"; "text/csv";
               "text/markdown"; "text/xml"; "application/json";
               "application/xml"; "application/javascript";
               "application/x-yaml"; "application/x-sh" ].
Proof.
  assert (default false (textMimeTypes !! mimeType) = true <->
          textMimeTypes !! mimeType = Some true) as ->.
  { destruct (textMimeTypes !! mimeType) as [[|]|]; cbn; split;
      (done || discriminate). }
  unfold textMimeTypes. rewrite <- elem_of_list_to_map.
  - rewrite !elem_of_cons, !elem_of_nil. split.
    + intros H.
      repeat (destruct H as [H|H]; [injection H as ->; tauto|]). destruct H.
    + intros H.
      repeat (destruct H as [->|H]; [tauto|]). destruct H.
  - cbn [fmap list_fmap fst].
    repeat (apply NoDup_cons; split;
            [rewrite ?elem_of_cons, elem_of_nil; intuition discriminate|]).
    apply NoDup_nil_2.
Qed.

(** X17.  [isTextFile] accepts a file exactly when its MIME type is one of
    the eleven listed types or its file type is one of the sixteen listed
    extensions, compared as they are written; either one is enough. *)
Theorem isTextFile_exact (mimeType fileType : string) :
  isTextFile mimeType fileType = true <->
  (mimeType ∈ [ "text/plain"; "text/html"; "text/css"; "text/csv";
                "text/markdown"; "text/xml"; "application/json";
                "application/xml"; "application/javascript";
                "application/x-yaml"; "application/x-sh" ]) \/
  (fileType ∈ [ "txt"; "md"; "json"; "xml"; "yaml"; "yml"; "csv"; "log";
                "sh"; "py"; "go"; "js"; "ts"; "html"; "css"; "sql" ]).
Proof.
  rewrite <- textMimeTypes_lookup. unfold isTextFile.
  destruct (default false (textMimeTypes !! mimeType)); [tauto|].
  rewrite existsb_exists. fold textExtensions. split.
  - intros (ext & Hin & Heq). apply String.eqb_eq in Heq as ->.
    right. by apply list_elem_of_In.
  - intros [Hm|Hin]; [discriminate|].
    exists fileType. split; [by apply list_elem_of_In | apply String.eqb_refl].
Qed.

(** X18.  [downloadFileContent] returns a content exactly when the request
    can be built, the HTTP client answers the GET of the URL without an
    error and with status 200, and the body is read without an error; the
    content is that body.  The request carries the header
    [Authorization: Bearer <token>] when the token is not empty and no
    header otherwise. *)
Theorem download_succeeds_iff (ap : ApiProvider) (url body : string) :
  downloadFileContent ap url = inr body <->
  NewRequestError ap url = nil_error /\
  exists resp,
    Do ap {| req_Method := "GET"; req_URL := url;
             req_Header :=
               if decide (SlackToken ap = "") then ∅
               else {[ "Authorization" := "Bearer " +:+ SlackToken ap ]} |}
      = (resp, nil_error) /\
    StatusCode resp = 200%Z /\
    ReadAll resp = (body, nil_error).
Proof.
  assert (downloadRequest ap url =
          {| req_Method := "GET"; req_URL := url;
             req_Header :=
               if decide (SlackToken ap = "") then ∅
               else {[ "Authorization" := "Bearer " +:+ SlackToken ap ]} |}) as <-.
  { unfold downloadRequest. f_equal.
    destruct (String.eqb_spec (SlackToken ap) "") as [He|Hne]; cbn [negb];
      case_decide; done. }
  unfold downloadFileContent, nil_error.
  destruct (NewRequestError ap url) as [e|];
    [split; [discriminate | intros [? _]; discriminate]|].
  destruct (Do ap (downloadRequest ap url)) as [resp [e|]].
  - split; [discriminate | intros [_ (r & [= _ ?] & _)]; discriminate].
  - destruct (Z.eqb_spec (StatusCode resp) 200) as [Hs|Hs]; cbn [negb].
    + destruct (ReadAll resp) as [b [e|]] eqn:Hr.
      * split; [discriminate|].
        intros [_ (r & [= <-] & _ & Hb)]. congruence.
      * split.
        -- intros [= <-]. split; [done|]. by exists resp.
        -- intros [_ (r & [= <-] & _ & Hb)]. congruence.
    + split; [discriminate|]. intros [_ (r & [= <-] & Hs' & _)]. done.
Qed.

(** X19.  [GetAttachmentContentHandler] returns a response only for a file
    that [isTextFile] accepts, and the [content] of the response is what
    [downloadFileContent] returns for the file's private URL; for a file
    that [isTextFile] rejects it returns the "not a text file" error,
    whatever the download would give. *)
Theorem content_only_for_text_files
    (ap : ApiProvider) (ctx : Context) (request : FileRequest) (file : File) :
  fileInfo ap ctx request = inr file ->
  (isTextFile (file_Mimetype file) (file_Filetype file) = false ->
   GetAttachmentContentHandler ap ctx request =
     inl (NotTextFile (file_Name file) (file_Mimetype file))) /\
  (forall response,
      GetAttachmentContentHandler ap ctx request = inr response ->
      isTextFile (file_Mimetype file) (file_Filetype file) = true /\
      exists content,
        downloadFileContent ap (file_URLPrivate file) = inr content /\
        response !! "content" = Some (VString content) /\
        response !! "id" = Some (VString (file_ID file))).
Proof.
  intros Hfile. unfold GetAttachmentContentHandler. rewrite Hfile.
  destruct (isTextFile (file_Mimetype file) (file_Filetype file)); cbn [negb].
  - split; [discriminate|]. intros response.
    destruct (downloadFileContent ap (file_URLPrivate file)) as [e|content];
      [discriminate|].
    intros [= <-]. split; [done|]. exists content. split; [done|].
    split; cbn [list_to_map foldr uncurry fst snd];
      repeat first [ apply lookup_insert_eq
                   | rewrite lookup_insert_ne by discriminate ].
  - split; [done|]. discriminate.
Qed.

Lemma content_only_for_text_files_witness :
  GetAttachmentContentHandler api context_Background {| arg_file_id := Some "F1" |}
    = inl (NotTextFile "report.pdf" "application/pdf") /\
  exists response,
    GetAttachmentContentHandler api context_Background {| arg_file_id := Some "F2" |}
      = inr response /\
    response !! "content" = Some (VString "remember the milk").
Proof.
  split.
  - apply (content_only_for_text_files api context_Background
             {| arg_file_id := Some "F1" |} report); reflexivity.
  - eexists. split; [reflexivity|].
    destruct (proj2 (content_only_for_text_files api context_Background
                       {| arg_file_id := Some "F2" |} notes eq_refl)
                _ eq_refl) as (_ & content & Hd & Hc & _).
    injection Hd as <-. exact Hc.
Defined.

(** X20.  [GetAttachmentDetailsHandler] returns details exactly when the
    call is authenticated, [file_id] is given and not empty, and Slack
    returns the file's information without an error; the details are then
    those of that file. *)
Theorem details_returned_iff
    (ap : ApiProvider) (ctx : Context) (request : FileRequest)
    (response : gmap string Value) :
  GetAttachmentDetailsHandler ap ctx request = inr response <->
  fst (IsAuthenticated ap ctx) = true /\
  exists fileID file,
    arg_file_id request = Some fileID /\ fileID <> "" /\
    GetFileInfoContext ap ctx fileID = (file, nil_error) /\
    response = detailsResponse ap file.
Proof.
  unfold GetAttachmentDetailsHandler, fileInfo, GetString, nil_error.
  destruct (IsAuthenticated ap ctx) as [[|] err]; cbn [fst snd negb];
    [|split; [discriminate | intros [? _]; discriminate]].
  destruct (arg_file_id request) as [fileID|]; cbn [from_option id].
  - destruct (String.eqb_spec fileID "") as [->|Hne].
    + split; [discriminate|]. intros [_ (f & file & [= <-] & Hne & _)]. done.
    + destruct (GetFileInfoContext ap ctx fileID) as [file [e|]] eqn:Hinfo.
      * split; [discriminate|].
        intros [_ (f & file' & [= <-] & _ & Hinfo' & _)]. congruence.
      * split.
        -- intros [= <-]. split; [done|]. by exists fileID, file.
        -- intros [_ (f & file' & [= <-] & _ & Hinfo' & ->)]. congruence.
  - split; [discriminate|]. intros [_ (f & file & Hf & _)]. discriminate.
Qed.

End HandlerExtras.
